(** * The chunker of scripts/generate-options.py

    A shallow embedding of [split_json_data]: the JSON data model that
    [json.loads] hands to it, the two encodings of [json.dumps] the function
    measures with (the default one and the one with [indent=2], both with
    [ensure_ascii=False]), the two greedy loops over list items and over
    key/value pairs, and the properties of the chunk sequence they build. *)

From Stdlib Require Import ZArith List Bool Ascii String Lia.
From Stdlib Require Import Numbers.DecimalString.
From Stdlib Require Import Sorting.Permutation Sorting.Sorted.
From Stdlib Require Structures.OrderedTypeEx.
From Stdlib Require Numbers.DecimalNat Numbers.DecimalFacts.
Import ListNotations.

Local Open Scope Z_scope.

(** ** JSON values *)

(** Text is carried as its UTF-8 encoding, one [ascii] per byte, so that
    [len(s.encode('utf-8'))] is [String.length].  A float is carried as the
    text [float.__repr__] prints for it, which is all the encoder reads of it.
    A [dict] is the list of its pairs in insertion order; Python keeps its
    keys pairwise distinct ([unique_keys]). *)
#[local] Unset Elimination Schemes.
Inductive json : Type :=
| JNull : json
| JBool (b : bool) : json
| JInt (n : Z) : json
| JFloat (repr : string) : json
| JStr (s : string) : json
| JList (items : list json) : json
| JDict (pairs : list (string * json)) : json.

#[local] Set Elimination Schemes.

Definition pydict : Type := list (string * json).

(** Induction over [json] that reaches the values nested in lists and dicts. *)
Section JsonInduction.
Variable P : json -> Prop.
Hypothesis Hnull : P JNull.
Hypothesis Hbool : forall b, P (JBool b).
Hypothesis Hint : forall n, P (JInt n).
Hypothesis Hfloat : forall r, P (JFloat r).
Hypothesis Hstr : forall s, P (JStr s).
Hypothesis Hlist : forall l, Forall P l -> P (JList l).
Hypothesis Hdict : forall d, Forall (fun kv => P (snd kv)) d -> P (JDict d).

Fixpoint json_nested_ind (v : json) : P v :=
  match v with
  | JNull => Hnull
  | JBool b => Hbool b
  | JInt n => Hint n
  | JFloat r => Hfloat r
  | JStr s => Hstr s
  | JList l =>
      Hlist l
        ((fix all (xs : list json) : Forall P xs :=
            match xs with
            | [] => Forall_nil P
            | x :: xs' => Forall_cons x (json_nested_ind x) (all xs')
            end) l)
  | JDict d =>
      Hdict d
        ((fix all (xs : pydict) : Forall (fun kv => P (snd kv)) xs :=
            match xs with
            | [] => Forall_nil _
            | kv :: xs' =>
                Forall_cons (P := fun kv => P (snd kv)) kv
                  (json_nested_ind (snd kv)) (all xs')
            end) d)
  end.
End JsonInduction.

(** ** json.dumps *)

Local Open Scope string_scope.

Definition quote : ascii := ascii_of_nat 34.
Definition backslash : ascii := ascii_of_nat 92.

Definition hex_digit (n : nat) : ascii :=
  match n with
  | 0 => "0" | 1 => "1" | 2 => "2" | 3 => "3" | 4 => "4" | 5 => "5"
  | 6 => "6" | 7 => "7" | 8 => "8" | 9 => "9" | 10 => "a" | 11 => "b"
  | 12 => "c" | 13 => "d" | 14 => "e" | _ => "f"
  end%char%nat.

(** [ESCAPE_DCT] of json.encoder: the quote, the backslash and the control
    characters below 0x20; every other byte stays as it is. *)
Definition escape_char (c : ascii) : string :=
  let n := nat_of_ascii c in
  if (n =? 34)%nat then String backslash (String quote EmptyString)
  else if (n =? 92)%nat then String backslash (String backslash EmptyString)
  else if (n =? 8)%nat then String backslash "b"
  else if (n =? 12)%nat then String backslash "f"
  else if (n =? 10)%nat then String backslash "n"
  else if (n =? 13)%nat then String backslash "r"
  else if (n =? 9)%nat then String backslash "t"
  else if (n <? 32)%nat then
    String backslash
      ("u00" ++ String (hex_digit (n / 16))
                  (String (hex_digit (n mod 16)) EmptyString))
  else String c EmptyString.

Fixpoint escape (s : string) : string :=
  match s with
  | EmptyString => EmptyString
  | String c s' => escape_char c ++ escape s'
  end.

(** [encode_basestring]: the escaped text between two quotes. *)
Definition encode_basestring (s : string) : string :=
  String quote (escape s ++ String quote EmptyString).

(** [int.__repr__] *)
Definition int_repr (n : Z) : string := NilZero.string_of_int (Z.to_int n).

Fixpoint join (sep : string) (parts : list string) : string :=
  match parts with
  | [] => EmptyString
  | [p] => p
  | p :: rest => p ++ sep ++ join sep rest
  end.

Fixpoint spaces (n : nat) : string :=
  match n with
  | O => EmptyString
  | S n' => String " " (spaces n')
  end.

Definition newline : string := String (ascii_of_nat 10) EmptyString.

(** [json.dumps(v, ensure_ascii=False)], encoded: separators [", "] and
    [": "], nothing between the brackets of an empty container. *)
Fixpoint dumps (v : json) : string :=
  match v with
  | JNull => "null"
  | JBool b => if b then "true" else "false"
  | JInt n => int_repr n
  | JFloat r => r
  | JStr s => encode_basestring s
  | JList [] => "[]"
  | JList l => "[" ++ join ", " (map dumps l) ++ "]"
  | JDict [] => "{}"
  | JDict d =>
      "{" ++ join ", "
               (map (fun kv => encode_basestring (fst kv) ++ ": " ++ dumps (snd kv)) d)
          ++ "}"
  end.

(** [json.dumps(v, ensure_ascii=False, indent=2)], encoded, for a value that
    sits [level] containers deep: the item separator is [","], and every item
    goes on a line of its own, indented by two spaces for each level. *)
Fixpoint dumps_indent_at (level : nat) (v : json) : string :=
  let newline_indent := newline ++ spaces (2 * S level) in
  match v with
  | JNull => "null"
  | JBool b => if b then "true" else "false"
  | JInt n => int_repr n
  | JFloat r => r
  | JStr s => encode_basestring s
  | JList [] => "[]"
  | JList l =>
      "[" ++ newline_indent
          ++ join ("," ++ newline_indent) (map (dumps_indent_at (S level)) l)
          ++ newline ++ spaces (2 * level) ++ "]"
  | JDict [] => "{}"
  | JDict d =>
      "{" ++ newline_indent
          ++ join ("," ++ newline_indent)
               (map (fun kv => encode_basestring (fst kv) ++ ": "
                                 ++ dumps_indent_at (S level) (snd kv)) d)
          ++ newline ++ spaces (2 * level) ++ "}"
  end.

Definition dumps_indent (v : json) : string := dumps_indent_at 0 v.

(** [len(text.encode('utf-8'))] *)
Definition byte_len (s : string) : Z := Z.of_nat (String.length s).

Local Close Scope string_scope.

(** ** The chunker *)

(** Maximum file size in bytes. *)
Definition MAX_FILE_SIZE : Z := 80 * 1024.

(** The three variables the loops of [split_json_data] update. *)
Record loop_state (A : Type) : Type := mk_state {
  chunks : list (list A);
  current_chunk : list A;
  current_size : Z
}.
Arguments mk_state {A} _ _ _.
Arguments chunks {A} _.
Arguments current_chunk {A} _.
Arguments current_size {A} _.

(** The loop over the items of a list and the loop over the pairs of a dict
    are the same statements but for two things: how an element is measured
    ([item_size]) and how it joins the chunk in progress ([add]: [append]
    for a list, [current_chunk[key] = value] for a dict).  [budget] stands for
    the global [MAX_FILE_SIZE]. *)
Section Greedy.
Context {A : Type}.
Variable item_size : A -> Z.
Variable add : list A -> A -> list A.
Variable budget : Z.

(** [chunks = []], [current_chunk = []], [current_size = 2]. *)
Definition loop_init : loop_state A := mk_state [] [] 2.

(** [if current_chunk: chunks.append(current_chunk); current_chunk = [];
    current_size = 2] *)
Definition flush_current (st : loop_state A) : loop_state A :=
  match current_chunk st with
  | [] => st
  | _ :: _ => mk_state (chunks st ++ [current_chunk st]) [] 2
  end.

(** One turn of the [for] loop. *)
Definition loop_body (st : loop_state A) (item : A) : loop_state A :=
  if item_size item >? budget - 2 then
    let st' := flush_current st in
    mk_state (chunks st' ++ [[item]]) (current_chunk st') (current_size st')
  else if current_size st + item_size item >? budget then
    mk_state (chunks st ++ [current_chunk st]) [item] (2 + item_size item)
  else
    mk_state (chunks st) (add (current_chunk st) item)
             (current_size st + item_size item).

Definition loop_run (data : list A) : loop_state A :=
  fold_left loop_body data loop_init.

(** [if current_chunk: chunks.append(current_chunk)] after the loop. *)
Definition loop_finish (st : loop_state A) : list (list A) :=
  match current_chunk st with
  | [] => chunks st
  | _ :: _ => chunks st ++ [current_chunk st]
  end.

Definition greedy_chunks (data : list A) : list (list A) :=
  loop_finish (loop_run data).
End Greedy.

(** [current_chunk.append(item)] *)
Definition list_append {A : Type} (l : list A) (x : A) : list A := l ++ [x].

(** [current_chunk[key] = value]: a key already there keeps its place and
    takes the new value, a new key goes last. *)
Fixpoint dict_setitem (d : pydict) (kv : string * json) : pydict :=
  match d with
  | [] => [kv]
  | (k, v) :: rest =>
      if String.eqb k (fst kv) then (k, snd kv) :: rest
      else (k, v) :: dict_setitem rest kv
  end.

(** [len(json.dumps(item, ensure_ascii=False).encode('utf-8')) + 1] *)
Definition list_item_size (item : json) : Z := byte_len (dumps item) + 1.

(** [len(json.dumps({key: value}, ensure_ascii=False).encode('utf-8'))] *)
Definition dict_item_size (kv : string * json) : Z :=
  byte_len (dumps (JDict [kv])).

Definition split_list (budget : Z) (data : list json) : list (list json) :=
  greedy_chunks list_item_size list_append budget data.

Definition split_dict (budget : Z) (data : pydict) : list pydict :=
  greedy_chunks dict_item_size dict_setitem budget data.

(** The value of [chunks] when [split_json_data] starts to save them. *)
Definition split_chunks (budget : Z) (data : json) : list json :=
  match data with
  | JList items => map JList (split_list budget items)
  | JDict pairs =>
      if byte_len (dumps_indent data) <=? budget then [data]
      else map JDict (split_dict budget pairs)
  | _ => [data]
  end.

(** The files written, [output_dir / f"{i}.json"] with its bytes, in the
    order they are written. *)
Fixpoint save_chunks (output_dir : string) (i : nat) (cs : list json)
  : list (string * string) :=
  match cs with
  | [] => []
  | c :: rest =>
      ((output_dir ++ "/" ++ NilZero.string_of_uint (Nat.to_uint i) ++ ".json")%string,
       dumps_indent c)
        :: save_chunks output_dir (S i) rest
  end.

(** [split_json_data] with the budget as an argument: the files it writes
    and the count it returns.  [typename] is not read by the source. *)
Definition split_json_data_with (budget : Z) (data : json) (output_dir : string)
  : list (string * string) * Z :=
  let cs := split_chunks budget data in
  (save_chunks output_dir 0 cs, Z.of_nat (List.length cs)).

Definition split_json_data (data : json) (output_dir : string)
  : list (string * string) * Z :=
  split_json_data_with MAX_FILE_SIZE data output_dir.

(** ** Estimates, merging and distinct keys *)

(** The sum of the per-element estimates of a chunk. *)
Definition sum_sizes {A : Type} (item_size : A -> Z) (c : list A) : Z :=
  fold_right (fun x acc => item_size x + acc) 0 c.

(** Estimated content size of a chunk: the two bytes of the brackets and the
    estimates of its elements. *)
Definition estimate {A : Type} (item_size : A -> Z) (c : list A) : Z :=
  2 + sum_sizes item_size c.

(** [target.update(source)] *)
Definition dict_update (target source : pydict) : pydict :=
  fold_left dict_setitem source target.

(** The chunks merged, first to last, into an empty dict. *)
Definition merge_chunks (cs : list pydict) : pydict :=
  fold_left dict_update cs [].

Fixpoint unique_keys (d : pydict) : bool :=
  match d with
  | [] => true
  | (k, _) :: rest =>
      negb (existsb (String.eqb k) (map fst rest)) && unique_keys rest
  end.

(** ** Invariants of the loop *)

Section GreedyDefs.
Context {A : Type}.
Variable item_size : A -> Z.
Variable budget : Z.

(** A chunk as the loop closes it: not empty, and within the budget unless
    it is one element that is too large to share a chunk. *)
Definition chunk_ok (c : list A) : Prop :=
  c <> [] /\
  (estimate item_size c <= budget \/ exists e, c = [e] /\ budget - 2 < item_size e).

(** What every turn of the loop keeps true. *)
Record loop_inv (st : loop_state A) : Prop := {
  inv_size : current_size st = estimate item_size (current_chunk st);
  inv_chunks : Forall chunk_ok (chunks st);
  inv_current :
    current_chunk st <> [] -> estimate item_size (current_chunk st) <= budget
}.

(** Chunks already closed stay as they are: the loop only appends. *)
Definition prepend (cs : list (list A)) (st : loop_state A) : loop_state A :=
  mk_state (cs ++ chunks st) (current_chunk st) (current_size st).

End GreedyDefs.

Definition is_container (data : json) : bool :=
  match data with
  | JList _ | JDict _ => true
  | _ => false
  end.

(** Why a chunk [c] was closed before the chunk [c'] began: the first
    element of [c'] is oversized, or [c] is one oversized element, or that
    first element would have taken [c] over the budget. *)
Definition tight_break {A : Type} (item_size : A -> Z) (budget : Z)
           (c c' : list A) : Prop :=
  match c' with
  | [] => False
  | x :: _ =>
      budget - 2 < item_size x
      \/ (exists e, c = [e] /\ budget - 2 < item_size e)
      \/ budget < estimate item_size c + item_size x
  end.

(** What the loop keeps true of the chunks it has closed and the one in
    progress, read as one chain. *)
Definition chain_inv {A : Type} (item_size : A -> Z) (budget : Z)
           (st : loop_state A) : Prop :=
  Sorted (tight_break item_size budget) (loop_finish st)
  /\ (current_chunk st = [] ->
      chunks st = []
      \/ exists cs e, chunks st = cs ++ [[e]] /\ budget - 2 < item_size e).

(** [output_dir / f"{i}.json"] *)
Definition chunk_path (output_dir : string) (i : nat) : string :=
  (output_dir ++ "/" ++ NilZero.string_of_uint (Nat.to_uint i) ++ ".json")%string.

(** ** The rest of the script: tables, manifests and [main] *)

Local Open Scope string_scope.

(** Base URL for the API. *)
Definition BASE_URL : string :=
  "https://raw.githubusercontent.com/ByMykel/CSGO-API/main/public/api/en".

(** Files to download. *)
Definition FILES : list string :=
  ["agents.json"; "base_weapons.json"; "collectibles.json"; "collections.json";
   "crates.json"; "graffiti.json"; "highlights.json"; "keychains.json";
   "keys.json"; "music_kits.json"; "patches.json"; "skins.json";
   "stickers.json"; "stickers_slab.json"; "tools.json"].

(** Mapping of file types to display names. *)
Definition DISPLAY_NAMES : list (string * string) :=
  [("skins", "Skins"); ("crates", "Crates"); ("collectibles", "Collectibles");
   ("keys", "Keys"); ("stickers", "Stickers"); ("keychains", "Keychains");
   ("stickers_slab", "Sticker Slabs"); ("agents", "Agents");
   ("patches", "Patches"); ("graffiti", "Graffiti");
   ("music_kits", "Music Kits"); ("base_weapons", "Base Weapons");
   ("collections", "Collections"); ("highlights", "Highlights");
   ("tools", "Tools")].

(** [d[k]], with [None] where [k in d] is false. *)
Fixpoint dict_get {V : Type} (d : list (string * V)) (k : string) : option V :=
  match d with
  | [] => None
  | (k', v) :: rest => if String.eqb k' k then Some v else dict_get rest k
  end.

(** The dict [file_counts]: type name to number of chunks, in insertion
    order. *)
Definition counts : Type := list (string * Z).

(** [file_counts[typename] = chunk_count] *)
Fixpoint counts_setitem (d : counts) (k : string) (n : Z) : counts :=
  match d with
  | [] => [(k, n)]
  | (k', n') :: rest =>
      if String.eqb k' k then (k', n) :: rest
      else (k', n') :: counts_setitem rest k n
  end.

(** [<] on the tuples [(typename, count)]: the names first, by code point
    (which is the order of their UTF-8 bytes), the counts on a tie. *)
Definition item_ltb (a b : string * Z) : bool :=
  match String.compare (fst a) (fst b) with
  | Lt => true
  | Gt => false
  | Eq => (snd a <? snd b)%Z
  end.

(** [sorted]: a stable sort by [<], here by insertion from the right end. *)
Fixpoint sorted_insert (x : string * Z) (l : counts) : counts :=
  match l with
  | [] => [x]
  | y :: rest => if item_ltb y x then y :: sorted_insert x rest else x :: y :: rest
  end.

Definition sorted (l : counts) : counts := fold_right sorted_insert [] l.

(** [json.dumps] with [separators=(item_separator, key_separator)] and no
    indent. *)
Fixpoint dumps_sep (item_separator key_separator : string) (v : json) : string :=
  match v with
  | JNull => "null"
  | JBool b => if b then "true" else "false"
  | JInt n => int_repr n
  | JFloat r => r
  | JStr s => encode_basestring s
  | JList [] => "[]"
  | JList l =>
      "[" ++ join item_separator (map (dumps_sep item_separator key_separator) l)
          ++ "]"
  | JDict [] => "{}"
  | JDict d =>
      "{" ++ join item_separator
               (map (fun kv => encode_basestring (fst kv) ++ key_separator
                                 ++ dumps_sep item_separator key_separator (snd kv)) d)
          ++ "}"
  end.

(** [f"{typename}|{count}"] *)
Definition option_value (typename : string) (count : Z) : string :=
  typename ++ "|" ++ int_repr count.

(** The list [item_types] that [generate_item_types_json] builds: one
    one-pair dict for each counted type that has a display name. *)
Definition item_types (file_counts : counts) : list json :=
  fold_left
    (fun acc tc =>
       match dict_get DISPLAY_NAMES (fst tc) with
       | Some display_name =>
           (acc ++ [JDict [(display_name, JStr (option_value (fst tc) (snd tc)))]])%list
       | None => acc
       end)
    (sorted file_counts) [].

(** The text [generate_item_types_json] writes to [output_path]. *)
Definition generate_item_types_json (file_counts : counts) : string :=
  dumps_sep "," ":" (JList (item_types file_counts)).

Definition dquote : string := String quote EmptyString.

Definition yml_header : string :=
  "- keyname: about" ++ newline
  ++ "  name: About This Plugin" ++ newline
  ++ "  field_type: author_bio" ++ newline
  ++ "  github_url: https://github.com/ExcuseMi/trmnl-counterstrike-2-showcase-plugin"
  ++ newline
  ++ "  description: " ++ dquote
  ++ "Showcase every available item in Counter-Strike 2, including skins, crates, collectibles, music kits, and more."
  ++ dquote ++ newline
  ++ "- keyname: item_types" ++ newline
  ++ "  field_type: select" ++ newline
  ++ "  name: Item Types to Display" ++ newline
  ++ "  description: " ++ dquote
  ++ "Select all the item types you want to display." ++ dquote ++ newline
  ++ "  options:" ++ newline.

Definition yml_footer : string :=
  "  multiple: true" ++ newline
  ++ "  help_text: " ++ dquote
  ++ "Use <kbd>⌘</kbd>+<kbd>click</kbd> or <kbd>Ctrl</kbd>+<kbd>click</kbd> to select multiple item types.<br />Leave empty to show all item types."
  ++ dquote ++ newline.

(** One turn of the loop of [generate_options_yml]:
    [yml_content += f'    - "{display_name}": {typename}|{max_index+1}\n']. *)
Definition yml_add_option (yml_content : string) (tc : string * Z) : string :=
  match dict_get DISPLAY_NAMES (fst tc) with
  | Some display_name =>
      let max_index := (snd tc - 1)%Z in
      yml_content ++ "    - " ++ dquote ++ display_name ++ dquote ++ ": "
                  ++ fst tc ++ "|" ++ int_repr (max_index + 1)%Z ++ newline
  | None => yml_content
  end.

(** The text [generate_options_yml] writes to [output_path]. *)
Definition generate_options_yml (file_counts : counts) : string :=
  fold_left yml_add_option (sorted file_counts) yml_header ++ yml_footer.

(** The entry of [item_types] for one counted type, if it has a display
    name. *)
Definition item_types_entry (tc : string * Z) : list json :=
  match dict_get DISPLAY_NAMES (fst tc) with
  | Some display_name =>
      [JDict [(display_name, JStr (option_value (fst tc) (snd tc)))]]
  | None => []
  end.

(** The line of options.yml that shows an entry of [item_types]. *)
Definition yml_line_of_entry (entry : json) : string :=
  match entry with
  | JDict [(display_name, JStr value)] =>
      "    - " ++ dquote ++ display_name ++ dquote ++ ": " ++ value ++ newline
  | _ => EmptyString
  end.

(** The strings of a list, one after the other. *)
Definition concat_lines (lines : list string) : string :=
  fold_right append EmptyString lines.

(** [a <= b] on the tuples of [file_counts.items()], as [not (b < a)]. *)
Definition item_le (a b : string * Z) : Prop := item_ltb b a = false.

Fixpoint has_char (c : ascii) (s : string) : bool :=
  match s with
  | EmptyString => false
  | String c' rest => Ascii.eqb c' c || has_char c rest
  end.

(** The part of a path before its first slash. *)
Fixpoint first_segment (s : string) : string :=
  match s with
  | EmptyString => EmptyString
  | String c rest =>
      if Ascii.eqb c "/" then EmptyString else String c (first_segment rest)
  end.

(** [s.replace(old, new)] for a non-empty [old]: every occurrence, left to
    right, none overlapping.  [skip] counts the bytes of an occurrence still
    to pass over. *)
Fixpoint replace_from (old new : string) (skip : nat) (s : string) : string :=
  match s with
  | EmptyString => EmptyString
  | String c rest =>
      match skip with
      | S k => replace_from old new k rest
      | O =>
          if prefix old s
          then new ++ replace_from old new (String.length old - 1)%nat rest
          else String c (replace_from old new 0 rest)
      end
  end.

Definition str_replace (s old new : string) : string := replace_from old new 0 s.

(** [filename.replace('.json', '')] *)
Definition typename_of (filename : string) : string :=
  str_replace filename ".json" "".

(** ** Runs: the files written and the value returned, or an exception *)

(** What a piece of the script does when it runs: the files it writes, oldest
    first, and the value it returns, or [None] when an exception ends it.
    The files written before the exception stay written. *)
Record run (A : Type) : Type := mk_run {
  log : list (string * string);
  result : option A
}.
Arguments mk_run {A} _ _.
Arguments log {A} _.
Arguments result {A} _.

Definition ret {A : Type} (a : A) : run A := mk_run [] (Some a).

Definition raise {A : Type} : run A := mk_run [] None.

Definition bind {A B : Type} (m : run A) (k : A -> run B) : run B :=
  match result m with
  | Some a => mk_run (log m ++ log (k a))%list (result (k a))
  | None => mk_run (log m) None
  end.

Notation "x <- m ;; k" := (bind m (fun x => k))
  (at level 61, m at next level, right associativity).

(** A [for] loop whose body runs with the state the turn before left. *)
Fixpoint for_each {A S : Type} (body : S -> A -> run S) (l : list A) (st : S)
  : run S :=
  match l with
  | [] => ret st
  | x :: rest => st' <- body st x ;; for_each body rest st'
  end.

(** What [urlopen(url)], [read], [decode] and [json.loads] come to: the
    parsed body, a [URLError], or any other exception. *)
Inductive fetched : Type :=
| Body (data : json)
| UrlError
| OtherError.

(** What the script cannot decide by itself: the answers of the network, the
    paths on which [os.makedirs] or [open(path, 'w')] raise [OSError], and
    whether the directory [data_dir] is there before the run. *)
Record environment : Type := mk_env {
  urlopen_json : string -> fetched;
  os_error : string -> bool;
  data_dir_exists : bool
}.

(** [with open(path, 'w', encoding='utf-8') as f: ...] in a directory that
    exists: [open] raises on the paths [os_error] names, and a write that
    starts is taken to finish. *)
Definition write_file (env : environment) (path content : string) : run unit :=
  if os_error env path then raise else mk_run [(path, content)] (Some tt).

(** [os.makedirs(path, exist_ok=True)] *)
Definition makedirs (env : environment) (path : string) : run unit :=
  if os_error env path then raise else ret tt.

(** The loop that saves the chunks, from index [i] on. *)
Fixpoint write_chunks (env : environment) (output_dir : string) (i : nat)
         (cs : list json) : run unit :=
  match cs with
  | [] => ret tt
  | c :: rest =>
      _ <- write_file env (chunk_path output_dir i) (dumps_indent c) ;;
      write_chunks env output_dir (S i) rest
  end.

(** A call of [split_json_data] in an environment, with the budget as an
    argument: the chunks are computed first, then the directory is made and
    the chunks are saved. *)
Definition split_json_data_run (env : environment) (budget : Z) (data : json)
           (typename output_dir : string) : run Z :=
  let cs := split_chunks budget data in
  _ <- makedirs env output_dir ;;
  _ <- write_chunks env output_dir 0 cs ;;
  ret (Z.of_nat (List.length cs)).

(** [download_file]: the parsed body, Python's [None] (which is [JNull], as
    for a body that is the JSON [null]) after a [URLError]; any other
    exception goes on to the caller. *)
Definition download_file (env : environment) (filename : string) : run json :=
  match urlopen_json env (BASE_URL ++ "/" ++ filename) with
  | Body data => ret data
  | UrlError => ret JNull
  | OtherError => raise
  end.

(** What [main] carries from one file to the next: the dict [file_counts],
    and whether [data_dir] exists by now. *)
Record main_state : Type := mk_main {
  file_counts : counts;
  data_dir_made : bool
}.

(** One turn of the loop over [FILES].  [os.makedirs] makes [data_dir] on its
    way to [data_dir / typename]. *)
Definition main_body (env : environment) (data_dir : string)
           (st : main_state) (filename : string) : run main_state :=
  let typename := typename_of filename in
  data <- download_file env filename ;;
  match data with
  | JNull => ret st
  | _ =>
      let output_dir := data_dir ++ "/" ++ typename in
      chunk_count <- split_json_data_run env MAX_FILE_SIZE data typename output_dir ;;
      ret (mk_main (counts_setitem (file_counts st) typename chunk_count) true)
  end.

Definition main_loop (env : environment) (data_dir : string) : run main_state :=
  for_each (main_body env data_dir) FILES (mk_main [] (data_dir_exists env)).

(** [open(output_path, 'w')] of a manifest: [FileNotFoundError] where
    [data_dir] does not exist. *)
Definition write_manifest (env : environment) (st : main_state)
           (output_path text : string) : run unit :=
  if data_dir_made st then write_file env output_path text else raise.

(** [main], with [data_dir] for [root_dir / "data"].  What is printed is left
    out. *)
Definition main (env : environment) (data_dir : string) : run unit :=
  st <- main_loop env data_dir ;;
  let item_types_path := data_dir ++ "/" ++ "item_types.json" in
  _ <- write_manifest env st item_types_path
         (generate_item_types_json (file_counts st)) ;;
  let options_path := data_dir ++ "/" ++ "options.yml" in
  write_manifest env st options_path (generate_options_yml (file_counts st)).

(** The dataset a file of [FILES] brings, if [main] goes on to split it. *)
Definition fetched_data (env : environment) (filename : string) : option json :=
  match urlopen_json env (BASE_URL ++ "/" ++ filename) with
  | Body JNull => None
  | Body data => Some data
  | UrlError => None
  | OtherError => None
  end.

Definition is_fetched (env : environment) (filename : string) : bool :=
  match fetched_data env filename with
  | Some _ => true
  | None => false
  end.

(** What a file adds to [file_counts] and to the files written when nothing
    raises. *)
Definition recorded (env : environment) (data_dir filename : string) : counts :=
  match fetched_data env filename with
  | None => []
  | Some data =>
      [(typename_of filename,
        snd (split_json_data data (data_dir ++ "/" ++ typename_of filename)))]
  end.

Definition saved (env : environment) (data_dir filename : string)
  : list (string * string) :=
  match fetched_data env filename with
  | None => []
  | Some data =>
      fst (split_json_data data (data_dir ++ "/" ++ typename_of filename))
  end.

(** The two manifests of a run that reaches them with the counts [fc]. *)
Definition manifests (data_dir : string) (fc : counts) : list (string * string) :=
  [(data_dir ++ "/" ++ "item_types.json", generate_item_types_json fc);
   (data_dir ++ "/" ++ "options.yml", generate_options_yml fc)].

(** Two environments to run the script in. *)
Definition quiet_env : environment :=
  mk_env (fun url =>
            if String.eqb url (BASE_URL ++ "/keys.json") then Body (JList [JInt 1])
            else if String.eqb url (BASE_URL ++ "/agents.json") then Body (JDict [])
            else if String.eqb url (BASE_URL ++ "/skins.json") then Body JNull
            else UrlError)
         (fun _ => false) false.

Definition offline_env (dir_exists : bool) : environment :=
  mk_env (fun _ => UrlError) (fun _ => false) dir_exists.

Local Close Scope string_scope.

(** ** Small datasets to run the chunker on *)

Definition sample_items : list json :=
  [JInt 1; JStr "ak47"; JList [JInt 2; JNull]; JStr "a long skin name";
   JBool true; JInt (-40)]%string.

Definition sample_pairs : pydict :=
  [("a", JInt 1); ("b", JInt 2); ("c", JStr "desert eagle");
   ("d", JList []); ("e", JFloat "0.25")]%string.

(** Four items of 29 bytes each, 30 with the byte for the comma. *)
Definition item0 : json := JStr "skin-0-aaaaaaaaaaaaaaaaaaaa"%string.
Definition item1 : json := JStr "skin-1-bbbbbbbbbbbbbbbbbbbb"%string.
Definition item2 : json := JStr "skin-2-cccccccccccccccccccc"%string.
Definition item3 : json := JStr "skin-3-dddddddddddddddddddd"%string.

(** * Proofs *)

(** ** The encoder on small values *)

Example dumps_pair_bytes :
  byte_len (dumps (JDict [("a", JInt 1)]%string)) = 8
  /\ byte_len (dumps_indent (JDict [("a", JInt 1); ("b", JInt 2)]%string)) = 22.
Proof. split; reflexivity. Qed.

Example dumps_nested :
  dumps (JList [JInt (-20); JInt 0; JNull; JBool true; JList []; JFloat "1.5"])
  = "[-20, 0, null, true, [], 1.5]"%string.
Proof. reflexivity. Qed.

Example dumps_indent_nested :
  dumps_indent (JList [JInt 1; JList [JNull]; JDict []])
  = ("[" ++ newline ++ "  1," ++ newline ++ "  [" ++ newline ++ "    null"
         ++ newline ++ "  ]," ++ newline ++ "  {}" ++ newline ++ "]")%string.
Proof. reflexivity. Qed.

Example escape_controls :
  escape (String quote (String backslash
            (String (ascii_of_nat 10) (String (ascii_of_nat 31) "é"))))%string
  = String backslash
      (String quote
         (String backslash
            (String backslash (String backslash ("n" ++ String backslash "u001fé")))))%string.
Proof. reflexivity. Qed.

(** Two small items and one beyond the budget: the small ones share a chunk,
    the large one is a chunk of its own. *)
Example one_oversized_item :
  split_chunks 50 (JList [JInt 123456789; JInt 987654321;
                          JStr "0123456789012345678901234567890123456789012345678"])
  = [JList [JInt 123456789; JInt 987654321];
     JList [JStr "0123456789012345678901234567890123456789012345678"]].
Proof. reflexivity. Qed.

(** Five pairs, two to a chunk. *)
Example dict_split_by_key :
  split_chunks 34 (JDict [("k1", JInt 1111111); ("k2", JInt 2222222);
                          ("k3", JInt 3333333); ("k4", JInt 4444444);
                          ("k5", JInt 5555555)]%string)
  = [JDict [("k1", JInt 1111111); ("k2", JInt 2222222)]%string;
     JDict [("k3", JInt 3333333); ("k4", JInt 4444444)]%string;
     JDict [("k5", JInt 5555555)]%string].
Proof. reflexivity. Qed.

(** ** Sizes of the two encodings *)

Lemma byte_len_app (a b : string) :
  byte_len (a ++ b) = byte_len a + byte_len b.
Proof.
  unfold byte_len. induction a as [|c a IH]; cbn [append String.length].
  - lia.
  - rewrite !Nat2Z.inj_succ. lia.
Qed.

Lemma byte_len_cons (c : ascii) (a : string) :
  byte_len (String c a) = 1 + byte_len a.
Proof. unfold byte_len. cbn [String.length]. lia. Qed.

Lemma byte_len_nonneg (a : string) : 0 <= byte_len a.
Proof. unfold byte_len. lia. Qed.

Lemma byte_len_empty : byte_len EmptyString = 0.
Proof. reflexivity. Qed.

Lemma byte_len_spaces (n : nat) : byte_len (spaces n) = Z.of_nat n.
Proof.
  induction n as [|n IH]; [reflexivity |].
  cbn [spaces]. rewrite byte_len_cons, IH. lia.
Qed.

Lemma byte_len_newline : byte_len newline = 1.
Proof. reflexivity. Qed.

Create Rewrite HintDb bytes.
#[local] Hint Rewrite byte_len_app byte_len_cons byte_len_empty
  byte_len_spaces byte_len_newline : bytes.

(** The parts and one separator after each but the last. *)
Lemma byte_len_join (sep : string) (parts : list string) :
  parts <> [] ->
  byte_len (join sep parts) + byte_len sep
  = sum_sizes (fun p => byte_len p + byte_len sep) parts.
Proof.
  induction parts as [|p rest IH]; intros Hne; [congruence |].
  unfold sum_sizes in *. cbn [fold_right].
  destruct rest as [|q rest].
  - cbn [join fold_right]. lia.
  - rewrite <- IH by discriminate.
    change (join sep (p :: q :: rest)) with (p ++ sep ++ join sep (q :: rest))%string.
    rewrite !byte_len_app. lia.
Qed.

Lemma sum_sizes_le {A : Type} (f g : A -> Z) (l : list A) :
  Forall (fun x => f x <= g x) l -> sum_sizes f l <= sum_sizes g l.
Proof.
  unfold sum_sizes. induction 1 as [|x l Hx _ IH]; cbn [fold_right]; lia.
Qed.

Lemma sum_sizes_map {A B : Type} (f : A -> B) (g : B -> Z) (l : list A) :
  sum_sizes g (map f l) = sum_sizes (fun x => g (f x)) l.
Proof.
  unfold sum_sizes. induction l as [|x l IH]; cbn [map fold_right];
    [reflexivity | rewrite IH; reflexivity].
Qed.

Lemma byte_len_join_le {A : Type} (f g : A -> string) (sep sep' : string)
      (l : list A) :
  Forall (fun x => byte_len (f x) <= byte_len (g x)) l ->
  byte_len sep <= byte_len sep' ->
  byte_len (join sep (map f l)) <= byte_len (join sep' (map g l)).
Proof.
  intros Hl Hsep. induction Hl as [|x l Hx Hl IH]; [cbn; lia |].
  destruct l as [|y l]; [exact Hx |].
  change (join sep (map f (x :: y :: l)))
    with (f x ++ sep ++ join sep (map f (y :: l)))%string.
  change (join sep' (map g (x :: y :: l)))
    with (g x ++ sep' ++ join sep' (map g (y :: l)))%string.
  rewrite !byte_len_app. lia.
Qed.

(** The indented encoding is never shorter than the default one. *)
Lemma dumps_le_indent (v : json) :
  forall level, byte_len (dumps v) <= byte_len (dumps_indent_at level v).
Proof.
  induction v as [| b | n | r | t | l IH | d IH] using json_nested_ind;
    intros level; try (cbn; lia).
  - destruct l as [|x l]; [cbn; lia |].
    cbn [dumps dumps_indent_at].
    autorewrite with bytes.
    assert (Hj := byte_len_join_le dumps (dumps_indent_at (S level)) ", "
                    ("," ++ newline ++ spaces (2 * S level)) (x :: l)).
    pose proof (byte_len_nonneg (spaces (2 * S level))).
    pose proof (byte_len_nonneg (spaces (2 * level))).
    pose proof (byte_len_nonneg newline).
    assert (byte_len ", " = 2) by reflexivity.
    assert (byte_len "," = 1) by reflexivity.
    assert (byte_len newline = 1) by reflexivity.
    rewrite !byte_len_app in Hj.
    specialize (Hj ltac:(eapply Forall_impl; [| exact IH]; intros a Ha; apply Ha)
                   ltac:(lia)).
    lia.
  - destruct d as [|x d]; [cbn; lia |].
    cbn [dumps dumps_indent_at].
    autorewrite with bytes.
    assert (Hj := byte_len_join_le
                    (fun kv => encode_basestring (fst kv) ++ ": " ++ dumps (snd kv))%string
                    (fun kv => encode_basestring (fst kv) ++ ": "
                                 ++ dumps_indent_at (S level) (snd kv))%string
                    ", " ("," ++ newline ++ spaces (2 * S level)) (x :: d)).
    pose proof (byte_len_nonneg (spaces (2 * S level))).
    pose proof (byte_len_nonneg (spaces (2 * level))).
    assert (byte_len ", " = 2) by reflexivity.
    assert (byte_len "," = 1) by reflexivity.
    assert (byte_len newline = 1) by reflexivity.
    rewrite !byte_len_app in Hj.
    specialize (Hj ltac:(eapply Forall_impl; [| exact IH]; cbn beta; intros a Ha;
                         rewrite !byte_len_app; specialize (Ha (S level)); lia)
                   ltac:(lia)).
    lia.
Qed.

Lemma dict_item_size_eq (kv : string * json) :
  dict_item_size kv
  = byte_len (encode_basestring (fst kv)) + byte_len (dumps (snd kv)) + 4.
Proof.
  unfold dict_item_size. cbn [dumps map join].
  autorewrite with bytes. lia.
Qed.

Lemma dict_item_size_pos (kv : string * json) : 0 < dict_item_size kv.
Proof.
  rewrite dict_item_size_eq.
  pose proof (byte_len_nonneg (encode_basestring (fst kv))).
  pose proof (byte_len_nonneg (dumps (snd kv))). lia.
Qed.

Lemma list_item_size_pos (item : json) : 0 < list_item_size item.
Proof. unfold list_item_size. pose proof (byte_len_nonneg (dumps item)). lia. Qed.

(** The estimate of a whole dict stays under its indented encoding. *)
Lemma estimate_lt_indent (d : pydict) :
  d <> [] ->
  estimate dict_item_size d < byte_len (dumps_indent (JDict d)).
Proof.
  intros Hne. destruct d as [|x d]; [congruence |].
  unfold dumps_indent. cbn [dumps_indent_at].
  assert (Hj := byte_len_join ("," ++ newline ++ spaces (2 * 1))
                  (map (fun kv => encode_basestring (fst kv) ++ ": "
                                    ++ dumps_indent_at 1 (snd kv))%string (x :: d))
                  ltac:(discriminate)).
  rewrite sum_sizes_map in Hj.
  assert (Hle : sum_sizes (fun kv => dict_item_size kv + 1) (x :: d)
                <= sum_sizes (fun kv => byte_len (encode_basestring (fst kv) ++ ": "
                                        ++ dumps_indent_at 1 (snd kv))
                                        + byte_len ("," ++ newline ++ spaces (2 * 1)))
                     (x :: d)).
  { apply sum_sizes_le, Forall_forall. intros kv _. rewrite dict_item_size_eq.
    autorewrite with bytes. pose proof (dumps_le_indent (snd kv) 1). lia. }
  assert (Hd : sum_sizes dict_item_size d
               <= sum_sizes (fun kv => dict_item_size kv + 1) d).
  { apply sum_sizes_le, Forall_forall. intros kv _. lia. }
  rewrite <- Hj in Hle. autorewrite with bytes in Hle. autorewrite with bytes.
  unfold estimate, sum_sizes in *. cbn [fold_right] in *. lia.
Qed.

Lemma estimate_le_indent (d : pydict) :
  estimate dict_item_size d <= byte_len (dumps_indent (JDict d)).
Proof.
  destruct d as [|x d]; [cbn; lia |].
  apply Z.lt_le_incl, estimate_lt_indent. discriminate.
Qed.

(** ** The greedy loop with [append] *)

Section GreedyFacts.
Context {A : Type}.
Variable item_size : A -> Z.
Variable budget : Z.

Abbreviation body := (loop_body item_size list_append budget).
Abbreviation pack := (greedy_chunks item_size list_append budget).
Abbreviation est := (estimate item_size).
Abbreviation chunk_ok := (chunk_ok item_size budget).
Abbreviation loop_inv := (loop_inv item_size budget).

Lemma sum_sizes_app (c1 c2 : list A) :
  sum_sizes item_size (c1 ++ c2) = sum_sizes item_size c1 + sum_sizes item_size c2.
Proof.
  induction c1 as [|x c1 IH]; simpl; [reflexivity | rewrite IH; lia].
Qed.

Lemma flush_current_concat (st : loop_state A) :
  List.concat (chunks (flush_current st)) ++ current_chunk (flush_current st)
  = List.concat (chunks st) ++ current_chunk st.
Proof.
  unfold flush_current. destruct (current_chunk st) as [|x c] eqn:E; simpl.
  - rewrite E. reflexivity.
  - rewrite concat_app. simpl. rewrite !app_nil_r. reflexivity.
Qed.

Lemma loop_body_concat (st : loop_state A) (item : A) :
  List.concat (chunks (body st item)) ++ current_chunk (body st item)
  = List.concat (chunks st) ++ current_chunk st ++ [item].
Proof.
  unfold loop_body.
  destruct (item_size item >? budget - 2).
  - unfold flush_current. destruct (current_chunk st) as [|x c] eqn:E;
      cbn [chunks current_chunk]; rewrite ?E, !concat_app; simpl;
      rewrite ?app_nil_r, <- ?app_assoc; reflexivity.
  - destruct (current_size st + item_size item >? budget);
      cbn [chunks current_chunk].
    + rewrite concat_app. simpl. rewrite app_nil_r, <- app_assoc. reflexivity.
    + reflexivity.
Qed.

Lemma loop_finish_concat (st : loop_state A) :
  List.concat (loop_finish st) = List.concat (chunks st) ++ current_chunk st.
Proof.
  unfold loop_finish. destruct (current_chunk st); simpl.
  - rewrite app_nil_r. reflexivity.
  - rewrite concat_app. simpl. rewrite app_nil_r. reflexivity.
Qed.

Lemma fold_body_concat (data : list A) (st : loop_state A) :
  List.concat (loop_finish (fold_left body data st))
  = List.concat (chunks st) ++ current_chunk st ++ data.
Proof.
  revert st. induction data as [|item data IH]; intros st; simpl.
  - rewrite app_nil_r. apply loop_finish_concat.
  - rewrite IH, app_assoc, loop_body_concat, <- !app_assoc. reflexivity.
Qed.

(** Nothing is lost, repeated or moved. *)
Lemma greedy_chunks_concat (data : list A) : List.concat (pack data) = data.
Proof. unfold greedy_chunks, loop_run. rewrite fold_body_concat. reflexivity. Qed.

Lemma loop_init_inv : loop_inv loop_init.
Proof. split; simpl; [reflexivity | constructor | congruence]. Qed.

Lemma loop_body_inv (st : loop_state A) (item : A) :
  loop_inv st -> loop_inv (body st item).
Proof.
  intros [Hsize Hchunks Hcur]. unfold loop_body.
  destruct (item_size item >? budget - 2) eqn:Hbig.
  - apply Z.gtb_lt in Hbig.
    assert (Hitem : chunk_ok [item]).
    { split; [discriminate | right; exists item; split; [reflexivity | lia]]. }
    unfold flush_current. destruct (current_chunk st) as [|x c] eqn:E.
    + split; cbn [chunks current_chunk current_size].
      * rewrite E. exact Hsize.
      * apply Forall_app; split; [exact Hchunks |].
        constructor; [exact Hitem | constructor].
      * rewrite E. congruence.
    + split; cbn [chunks current_chunk current_size].
      * reflexivity.
      * apply Forall_app; split;
          [apply Forall_app; split; [exact Hchunks |] |];
          (constructor; [| constructor]); [| exact Hitem].
        split; [discriminate | left; apply Hcur; discriminate].
      * congruence.
  - assert (Hfit : item_size item <= budget - 2).
    { destruct (Z.gtb_spec (item_size item) (budget - 2)); [discriminate | lia]. }
    destruct (current_size st + item_size item >? budget) eqn:Hover.
    + apply Z.gtb_lt in Hover.
      assert (Hne : current_chunk st <> []).
      { intros E. rewrite Hsize, E in Hover. unfold estimate, sum_sizes in Hover.
        cbn [fold_right] in Hover.
        lia. }
      split; cbn [chunks current_chunk current_size].
      * unfold estimate, sum_sizes. cbn [fold_right]. lia.
      * apply Forall_app; split; [exact Hchunks |].
        constructor; [| constructor].
        split; [exact Hne | left; apply Hcur, Hne].
      * intros _. unfold estimate, sum_sizes. cbn [fold_right]. lia.
    + assert (Hin : current_size st + item_size item <= budget).
      { destruct (Z.gtb_spec (current_size st + item_size item) budget);
          [discriminate | lia]. }
      split; cbn [chunks current_chunk current_size].
      * unfold list_append, estimate. rewrite sum_sizes_app, Hsize.
        unfold estimate, sum_sizes. cbn [fold_right]. lia.
      * exact Hchunks.
      * intros _. unfold list_append, estimate. rewrite sum_sizes_app.
        rewrite Hsize in Hin. unfold estimate, sum_sizes in *. cbn [fold_right]. lia.
Qed.

Lemma fold_body_inv (data : list A) (st : loop_state A) :
  loop_inv st -> loop_inv (fold_left body data st).
Proof.
  revert st. induction data as [|item data IH]; intros st Hst; simpl.
  - exact Hst.
  - apply IH, loop_body_inv, Hst.
Qed.

Lemma loop_run_inv (data : list A) :
  loop_inv (loop_run item_size list_append budget data).
Proof. apply fold_body_inv, loop_init_inv. Qed.

Lemma loop_finish_ok (st : loop_state A) :
  loop_inv st -> Forall chunk_ok (loop_finish st).
Proof.
  intros [Hsize Hchunks Hcur]. unfold loop_finish.
  destruct (current_chunk st) as [|x c] eqn:E; [exact Hchunks |].
  apply Forall_app; split; [exact Hchunks |].
  constructor; [| constructor].
  split; [discriminate | left; apply Hcur; discriminate].
Qed.

Lemma greedy_chunks_ok (data : list A) : Forall chunk_ok (pack data).
Proof. apply loop_finish_ok, loop_run_inv. Qed.

Lemma loop_body_prepend (cs : list (list A)) (st : loop_state A) (item : A) :
  body (prepend cs st) item = prepend cs (body st item).
Proof.
  unfold loop_body, prepend, flush_current. cbn [chunks current_chunk current_size].
  destruct (item_size item >? budget - 2).
  - destruct (current_chunk st) eqn:E; cbn [chunks current_chunk current_size];
      rewrite ?E, <- ?app_assoc; reflexivity.
  - destruct (current_size st + item_size item >? budget);
      cbn [chunks current_chunk current_size]; rewrite <- ?app_assoc; reflexivity.
Qed.

Lemma fold_body_prepend (data : list A) (cs : list (list A)) (st : loop_state A) :
  fold_left body data (prepend cs st) = prepend cs (fold_left body data st).
Proof.
  revert st. induction data as [|item data IH]; intros st; simpl.
  - reflexivity.
  - rewrite loop_body_prepend. apply IH.
Qed.

Lemma loop_finish_prepend (cs : list (list A)) (st : loop_state A) :
  loop_finish (prepend cs st) = cs ++ loop_finish st.
Proof.
  unfold loop_finish, prepend. cbn [chunks current_chunk].
  destruct (current_chunk st); [reflexivity | apply eq_sym, app_assoc].
Qed.

Lemma fold_body_from (data : list A) (cs : list (list A)) :
  loop_finish (fold_left body data (mk_state cs [] 2)) = cs ++ pack data.
Proof.
  replace (mk_state cs [] 2) with (prepend cs (@loop_init A)).
  - rewrite fold_body_prepend. apply loop_finish_prepend.
  - unfold prepend, loop_init. simpl. rewrite app_nil_r. reflexivity.
Qed.

Hypothesis item_size_pos : forall a, 0 < item_size a.

Lemma sum_sizes_nonneg (c : list A) : 0 <= sum_sizes item_size c.
Proof.
  induction c as [|x c IH]; unfold sum_sizes in *; cbn [fold_right];
    [lia | specialize (item_size_pos x); lia].
Qed.

Lemma sum_sizes_in (e : A) (c : list A) :
  In e c -> c = [e] \/ item_size e + 1 <= sum_sizes item_size c.
Proof.
  induction c as [|x c IH]; intros Hin; [destruct Hin |].
  change (sum_sizes item_size (x :: c)) with (item_size x + sum_sizes item_size c).
  destruct Hin as [-> | Hin].
  - destruct c as [|y c]; [left; reflexivity | right].
    change (sum_sizes item_size (y :: c)) with (item_size y + sum_sizes item_size c).
    pose proof (item_size_pos y). pose proof (sum_sizes_nonneg c). lia.
  - right. pose proof (item_size_pos x).
    destruct (IH Hin) as [-> | Hle].
    + unfold sum_sizes. cbn [fold_right]. lia.
    + lia.
Qed.

(** An element of more than [budget - 3] estimated bytes shares its chunk
    with nothing. *)
Lemma chunk_ok_isolates (c : list A) (e : A) :
  chunk_ok c -> In e c -> budget - 3 < item_size e -> c = [e].
Proof.
  intros [_ [Hfit | [x [-> _]]]] Hin Hbig.
  - destruct (sum_sizes_in e c Hin) as [-> | Hle]; [reflexivity |].
    unfold estimate in Hfit. lia.
  - destruct Hin as [-> | []]. reflexivity.
Qed.

(** What one turn of the loop does with such an element: the chunk in
    progress is closed, and either the element is closed as a chunk too, or
    it starts a chunk that is full from the start. *)
Lemma loop_body_isolated (st : loop_state A) (e : A) :
  loop_inv st -> budget - 3 < item_size e ->
  body st e = mk_state (loop_finish st ++ [[e]]) [] 2
  \/ body st e = mk_state (loop_finish st) [e] budget.
Proof.
  intros [Hsize _ _] Hbig. unfold loop_body, flush_current, loop_finish.
  destruct (item_size e >? budget - 2) eqn:Hover.
  - left. destruct (current_chunk st) as [|x c] eqn:E;
      cbn [chunks current_chunk current_size]; [| reflexivity].
    rewrite E, Hsize. reflexivity.
  - right.
    assert (Heq : item_size e = budget - 2).
    { destruct (Z.gtb_spec (item_size e) (budget - 2)); [discriminate | lia]. }
    rewrite Hsize. destruct (current_chunk st) as [|x c] eqn:E.
    + unfold estimate, sum_sizes. cbn [fold_right].
      destruct (Z.gtb_spec (2 + 0 + item_size e) budget); [exfalso; lia |].
      unfold list_append. cbn [app]. f_equal. lia.
    + unfold estimate.
      change (sum_sizes item_size (x :: c))
        with (item_size x + sum_sizes item_size c).
      pose proof (item_size_pos x). pose proof (sum_sizes_nonneg c).
      destruct (Z.gtb_spec (2 + (item_size x + sum_sizes item_size c) + item_size e) budget);
        [| exfalso; lia].
      f_equal. lia.
Qed.

Lemma fold_body_full (post : list A) (cs : list (list A)) (e : A) :
  loop_finish (fold_left body post (mk_state cs [e] budget))
  = cs ++ [e] :: pack post.
Proof.
  destruct post as [|p post]; [reflexivity |].
  cbn [fold_left].
  assert (Hstep : body (mk_state cs [e] budget) p
                  = prepend (cs ++ [[e]]) (body loop_init p)).
  { unfold loop_body, prepend, flush_current, loop_init.
    cbn [chunks current_chunk current_size].
    pose proof (item_size_pos p).
    destruct (Z.gtb_spec (item_size p) (budget - 2)).
    - cbn [chunks current_chunk current_size]. reflexivity.
    - destruct (Z.gtb_spec (budget + item_size p) budget); [| exfalso; lia].
      destruct (Z.gtb_spec (2 + item_size p) budget); [exfalso; lia |].
      cbn [chunks current_chunk current_size]. rewrite app_nil_r. reflexivity. }
  rewrite Hstep, fold_body_prepend, loop_finish_prepend, <- app_assoc.
  reflexivity.
Qed.

(** The chunks before such an element are those of the elements before it,
    the chunks after it those of the elements after it. *)
Lemma greedy_chunks_isolated (pre post : list A) (e : A) :
  budget - 3 < item_size e ->
  pack (pre ++ e :: post) = pack pre ++ [e] :: pack post.
Proof.
  intros Hbig. unfold greedy_chunks at 1. unfold loop_run.
  rewrite fold_left_app. cbn [fold_left].
  fold (loop_run item_size list_append budget pre).
  destruct (loop_body_isolated _ e (loop_run_inv pre) Hbig) as [-> | ->].
  - rewrite fold_body_from, <- app_assoc. reflexivity.
  - apply fold_body_full.
Qed.

End GreedyFacts.

(** ** Dicts: distinct keys make [current_chunk[key] = value] an append *)

Lemma unique_keys_NoDup (d : pydict) :
  unique_keys d = true <-> NoDup (map fst d).
Proof.
  induction d as [|[k v] d IH]; cbn [unique_keys map fst].
  - split; [constructor | reflexivity].
  - rewrite andb_true_iff, negb_true_iff, IH. split.
    + intros [Hk Hd]. constructor; [| exact Hd].
      intros Hin. apply not_true_iff_false in Hk. apply Hk.
      apply existsb_exists. exists k. split; [exact Hin | apply String.eqb_refl].
    + intros Hnd. inversion Hnd as [|? ? Hk Hd]; subst. split; [| exact Hd].
      apply not_true_iff_false. intros Hex.
      apply existsb_exists in Hex. destruct Hex as [k' [Hin Heq]].
      apply String.eqb_eq in Heq. subst k'. exact (Hk Hin).
Qed.

Lemma dict_setitem_fresh (d : pydict) (kv : string * json) :
  ~ In (fst kv) (map fst d) -> dict_setitem d kv = d ++ [kv].
Proof.
  induction d as [|[k v] d IH]; intros Hfresh; cbn [dict_setitem app].
  - reflexivity.
  - cbn [map fst In] in Hfresh.
    destruct (String.eqb_spec k (fst kv)) as [-> | _]; [tauto |].
    rewrite IH by tauto. reflexivity.
Qed.

Lemma loop_body_fresh (budget : Z) (st : loop_state (string * json))
      (kv : string * json) :
  ~ In (fst kv) (map fst (current_chunk st)) ->
  loop_body dict_item_size dict_setitem budget st kv
  = loop_body dict_item_size list_append budget st kv.
Proof.
  intros Hfresh. unfold loop_body, list_append.
  rewrite dict_setitem_fresh by exact Hfresh. reflexivity.
Qed.

Lemma loop_body_keys (budget : Z) (st : loop_state (string * json))
      (kv : string * json) (k : string) :
  In k (map fst (current_chunk
                   (loop_body dict_item_size list_append budget st kv))) ->
  In k (map fst (current_chunk st)) \/ k = fst kv.
Proof.
  unfold loop_body, flush_current, list_append.
  destruct (dict_item_size kv >? budget - 2).
  - destruct (current_chunk st) eqn:E; cbn [current_chunk]; rewrite ?E; cbn; tauto.
  - destruct (current_size st + dict_item_size kv >? budget); cbn [current_chunk].
    + cbn. intros [<- | []]. right. reflexivity.
    + rewrite map_app, in_app_iff. cbn. intros [H | [<- | []]]; tauto.
Qed.

Lemma fold_body_fresh (budget : Z) (d : pydict) :
  NoDup (map fst d) ->
  forall st : loop_state (string * json),
    (forall k, In k (map fst (current_chunk st)) -> ~ In k (map fst d)) ->
    fold_left (loop_body dict_item_size dict_setitem budget) d st
    = fold_left (loop_body dict_item_size list_append budget) d st.
Proof.
  induction d as [|kv d IH]; intros Hnd st Hst; [reflexivity |].
  cbn [fold_left map] in *. inversion Hnd as [|? ? Hk Hd]; subst.
  rewrite loop_body_fresh.
  - apply IH; [exact Hd |]. intros k Hin Hin'.
    destruct (loop_body_keys _ _ _ _ Hin) as [Hold | ->].
    + apply (Hst k Hold). right. exact Hin'.
    + exact (Hk Hin').
  - intros Hin. apply (Hst _ Hin). left. reflexivity.
Qed.

Lemma split_dict_append (budget : Z) (d : pydict) :
  unique_keys d = true ->
  split_dict budget d = greedy_chunks dict_item_size list_append budget d.
Proof.
  intros Hu. unfold split_dict, greedy_chunks, loop_run.
  rewrite fold_body_fresh; [reflexivity | apply unique_keys_NoDup, Hu |].
  intros k [].
Qed.

Lemma dict_update_fresh (source target : pydict) :
  NoDup (map fst (target ++ source)) ->
  dict_update target source = target ++ source.
Proof.
  unfold dict_update. revert target.
  induction source as [|kv source IH]; intros target Hnd; cbn [fold_left].
  - rewrite app_nil_r. reflexivity.
  - assert (Hfresh : ~ In (fst kv) (map fst target)).
    { rewrite map_app in Hnd. cbn [map] in Hnd.
      apply NoDup_remove_2 in Hnd. rewrite in_app_iff in Hnd. tauto. }
    rewrite dict_setitem_fresh by exact Hfresh.
    rewrite IH; rewrite <- app_assoc; [reflexivity | exact Hnd].
Qed.

Lemma fold_dict_update_fresh (cs : list pydict) (target : pydict) :
  NoDup (map fst (target ++ List.concat cs)) ->
  fold_left dict_update cs target = target ++ List.concat cs.
Proof.
  revert target. induction cs as [|c cs IH]; intros target Hnd;
    cbn [fold_left List.concat] in *.
  - rewrite app_nil_r. reflexivity.
  - rewrite app_assoc in Hnd. rewrite dict_update_fresh.
    + rewrite IH by exact Hnd. rewrite app_assoc. reflexivity.
    + rewrite map_app in Hnd. apply NoDup_app_remove_r in Hnd. exact Hnd.
Qed.

(** ** Runs *)

Lemma bind_some {A B : Type} (m : run A) (k : A -> run B) (a : A) :
  result m = Some a ->
  bind m k = mk_run (log m ++ log (k a)) (result (k a)).
Proof. intros H. unfold bind. rewrite H. reflexivity. Qed.

Lemma bind_none {A B : Type} (m : run A) (k : A -> run B) :
  result m = None -> bind m k = mk_run (log m) None.
Proof. intros H. unfold bind. rewrite H. reflexivity. Qed.

Lemma bind_ret {A B : Type} (a : A) (k : A -> run B) : bind (ret a) k = k a.
Proof. unfold bind, ret. cbn [result log app]. destruct (k a). reflexivity. Qed.

Lemma bind_raise {A B : Type} (k : A -> run B) : bind raise k = raise.
Proof. reflexivity. Qed.


(** The files written are the first of those to save, and all of them when no
    exception ends the loop. *)
Lemma write_chunks_prefix (env : environment) (output_dir : string)
      (cs : list json) (i : nat) :
  exists rest,
    save_chunks output_dir i cs = log (write_chunks env output_dir i cs) ++ rest.
Proof.
  revert i. induction cs as [|c cs IH]; intros i; cbn [write_chunks save_chunks].
  - exists []. reflexivity.
  - unfold write_file. destruct (os_error env (chunk_path output_dir i)).
    + rewrite bind_raise. eexists. reflexivity.
    + rewrite (bind_some _ _ tt) by reflexivity. cbn [log app].
      destruct (IH (S i)) as [rest Hrest]. exists rest. rewrite Hrest. reflexivity.
Qed.

Lemma write_chunks_done (env : environment) (output_dir : string)
      (cs : list json) (i : nat) :
  result (write_chunks env output_dir i cs) = Some tt ->
  log (write_chunks env output_dir i cs) = save_chunks output_dir i cs.
Proof.
  revert i. induction cs as [|c cs IH]; intros i; cbn [write_chunks save_chunks].
  - reflexivity.
  - unfold write_file. destruct (os_error env (chunk_path output_dir i)).
    + rewrite bind_raise. discriminate.
    + rewrite (bind_some _ _ tt) by reflexivity. cbn [log result app].
      intros H. rewrite (IH _ H). reflexivity.
Qed.


Lemma split_json_data_run_prefix (env : environment) (budget : Z) (data : json)
      (typename output_dir : string) :
  exists rest,
    fst (split_json_data_with budget data output_dir)
    = log (split_json_data_run env budget data typename output_dir) ++ rest.
Proof.
  unfold split_json_data_run, split_json_data_with, makedirs. cbn [fst].
  destruct (os_error env output_dir).
  - rewrite bind_raise. eexists. reflexivity.
  - rewrite bind_ret.
    destruct (write_chunks_prefix env output_dir (split_chunks budget data) 0)
      as [rest Hrest].
    destruct (result (write_chunks env output_dir 0 (split_chunks budget data)))
      as [[]|] eqn:E.
    + rewrite (bind_some _ _ tt) by exact E. cbn [log ret].
      rewrite app_nil_r. exists rest. exact Hrest.
    + rewrite bind_none by exact E. cbn [log]. exists rest. exact Hrest.
Qed.

Lemma split_json_data_run_done (env : environment) (budget : Z) (data : json)
      (typename output_dir : string) (n : Z) :
  result (split_json_data_run env budget data typename output_dir) = Some n ->
  n = snd (split_json_data_with budget data output_dir)
  /\ log (split_json_data_run env budget data typename output_dir)
     = fst (split_json_data_with budget data output_dir)
  /\ os_error env output_dir = false.
Proof.
  unfold split_json_data_run, split_json_data_with, makedirs. cbn [fst snd].
  destruct (os_error env output_dir).
  - rewrite bind_raise. discriminate.
  - rewrite bind_ret.
    destruct (result (write_chunks env output_dir 0 (split_chunks budget data)))
      as [[]|] eqn:E.
    + rewrite (bind_some _ _ tt) by exact E. cbn [log result ret].
      intros [= <-]. rewrite app_nil_r, (write_chunks_done _ _ _ _ E).
      repeat split; reflexivity.
    + rewrite bind_none by exact E. discriminate.
Qed.


(** ** The chunks of a list and of a dict *)

Lemma in_map_JList (c : list json) (cs : list (list json)) :
  In (JList c) (map JList cs) -> In c cs.
Proof.
  rewrite in_map_iff. intros [c' [Heq Hin]]. injection Heq as ->. exact Hin.
Qed.

Lemma in_map_JDict (c : pydict) (cs : list pydict) :
  In (JDict c) (map JDict cs) -> In c cs.
Proof.
  rewrite in_map_iff. intros [c' [Heq Hin]]. injection Heq as ->. exact Hin.
Qed.

Lemma split_chunks_dict (budget : Z) (pairs : pydict) :
  unique_keys pairs = true ->
  (byte_len (dumps_indent (JDict pairs)) <= budget
   /\ split_chunks budget (JDict pairs) = [JDict pairs])
  \/ (budget < byte_len (dumps_indent (JDict pairs))
      /\ split_chunks budget (JDict pairs)
         = map JDict (greedy_chunks dict_item_size list_append budget pairs)).
Proof.
  intros Hu. unfold split_chunks.
  destruct (Z.leb_spec (byte_len (dumps_indent (JDict pairs))) budget).
  - left. split; [assumption | reflexivity].
  - right. split; [assumption |]. rewrite split_dict_append by exact Hu.
    reflexivity.
Qed.

Lemma chunk_ok_budget {A : Type} (item_size : A -> Z) (budget : Z) (c : list A) :
  chunk_ok item_size budget c ->
  ((1 < List.length c)%nat -> estimate item_size c <= budget)
  /\ (budget < estimate item_size c ->
      exists e, c = [e] /\ budget - 2 < item_size e).
Proof.
  intros [_ [Hfit | [e [-> He]]]]; split.
  - intros _. exact Hfit.
  - intros Hover. exfalso. lia.
  - cbn [List.length]. intros Hlen. exfalso. lia.
  - intros _. exists e. split; [reflexivity | exact He].
Qed.

Lemma sum_sizes_member {A : Type} (item_size : A -> Z) (e : A) (c : list A) :
  (forall a, 0 < item_size a) -> In e c -> item_size e <= sum_sizes item_size c.
Proof.
  intros Hpos Hin. destruct (sum_sizes_in item_size Hpos e c Hin) as [-> | Hle].
  - unfold sum_sizes. cbn [fold_right]. lia.
  - lia.
Qed.

(** A dict that holds a pair of more than [budget - 3] bytes is too long for
    the budget when indented. *)
Lemma large_pair_no_shortcut (budget : Z) (pairs : pydict) (kv : string * json) :
  In kv pairs -> budget - 3 < dict_item_size kv ->
  budget < byte_len (dumps_indent (JDict pairs)).
Proof.
  intros Hin Hbig.
  assert (Hne : pairs <> []) by (intros ->; destruct Hin).
  pose proof (estimate_lt_indent pairs Hne) as Hlt.
  pose proof (sum_sizes_member dict_item_size kv pairs dict_item_size_pos Hin).
  unfold estimate in Hlt. lia.
Qed.

Lemma unique_keys_app (d1 d2 : pydict) :
  unique_keys (d1 ++ d2) = true ->
  unique_keys d1 = true /\ unique_keys d2 = true.
Proof.
  rewrite !unique_keys_NoDup, map_app. intros Hnd. split.
  - eapply NoDup_app_remove_r. exact Hnd.
  - eapply NoDup_app_remove_l. exact Hnd.
Qed.

Lemma unique_keys_tail (kv : string * json) (d : pydict) :
  unique_keys (kv :: d) = true -> unique_keys d = true.
Proof.
  destruct kv as [k v]. cbn [unique_keys]. rewrite andb_true_iff. tauto.
Qed.

(** * Properties of the chunk sequence *)

(** C1. The chunks of a list, concatenated in order, are the list: same
    items, same order, nothing lost or repeated.  The chunks of a dict are
    sub-dicts whose pairs, in order, are the pairs of the dict, and merging
    them first to last gives the dict back, keys in their order.  This holds
    for every budget, positive or not. *)
Theorem chunks_reassemble (budget : Z) (items : list json) (pairs : pydict) :
  (exists cs, split_chunks budget (JList items) = map JList cs
              /\ List.concat cs = items)
  /\ (unique_keys pairs = true ->
      exists cs, split_chunks budget (JDict pairs) = map JDict cs
                 /\ List.concat cs = pairs
                 /\ merge_chunks cs = pairs).
Proof.
  split.
  - exists (split_list budget items). split; [reflexivity |].
    apply greedy_chunks_concat.
  - intros Hkeys.
    assert (Hnd : NoDup (map fst pairs)) by (apply unique_keys_NoDup, Hkeys).
    destruct (split_chunks_dict budget pairs Hkeys) as [[_ ->] | [_ ->]].
    + exists [pairs]. split; [reflexivity |]. split.
      * cbn. apply app_nil_r.
      * unfold merge_chunks. cbn [fold_left].
        apply (dict_update_fresh pairs []). exact Hnd.
    + exists (greedy_chunks dict_item_size list_append budget pairs).
      split; [reflexivity |].
      pose proof (greedy_chunks_concat dict_item_size budget pairs) as Hcat.
      split; [exact Hcat |].
      unfold merge_chunks. rewrite fold_dict_update_fresh; rewrite Hcat.
      * reflexivity.
      * exact Hnd.
Qed.

Lemma chunks_reassemble_witness :
  unique_keys sample_pairs = true
  /\ (exists cs, split_chunks 20 (JList sample_items) = map JList cs
                 /\ List.concat cs = sample_items)
  /\ (exists cs, split_chunks 20 (JDict sample_pairs) = map JDict cs
                 /\ List.concat cs = sample_pairs
                 /\ merge_chunks cs = sample_pairs).
Proof.
  split; [reflexivity |].
  destruct (chunks_reassemble 20 sample_items sample_pairs) as [Hl Hd].
  split; [exact Hl | apply Hd; reflexivity].
Defined.

(** C2. Whatever the budget, a chunk of more than one element has an
    estimated content size (2 plus the estimates of its elements, as the loop
    adds them up) within the budget, and a chunk whose estimate is over the
    budget holds exactly one element, one that failed the test
    [item_size > MAX_FILE_SIZE - 2]. *)
Theorem chunks_within_budget (budget : Z) (items : list json) (pairs : pydict) :
  (forall c, In (JList c) (split_chunks budget (JList items)) ->
     ((1 < List.length c)%nat -> estimate list_item_size c <= budget)
     /\ (budget < estimate list_item_size c ->
         exists e, c = [e] /\ budget - 2 < list_item_size e))
  /\ (unique_keys pairs = true ->
      forall c, In (JDict c) (split_chunks budget (JDict pairs)) ->
        ((1 < List.length c)%nat -> estimate dict_item_size c <= budget)
        /\ (budget < estimate dict_item_size c ->
            exists kv, c = [kv] /\ budget - 2 < dict_item_size kv)).
Proof.
  split.
  - intros c Hin. apply in_map_JList in Hin. apply chunk_ok_budget.
    pose proof (greedy_chunks_ok list_item_size budget items) as Hok.
    rewrite Forall_forall in Hok. apply Hok, Hin.
  - intros Hkeys c Hin.
    destruct (split_chunks_dict budget pairs Hkeys) as [[Hfit Heq] | [_ Heq]];
      rewrite Heq in Hin.
    + destruct Hin as [Hc | []]. injection Hc as <-.
      pose proof (estimate_le_indent pairs). split.
      * intros _. lia.
      * intros Hover. exfalso. lia.
    + apply in_map_JDict in Hin. apply chunk_ok_budget.
      pose proof (greedy_chunks_ok dict_item_size budget pairs) as Hok.
      rewrite Forall_forall in Hok. apply Hok, Hin.
Qed.

Lemma chunks_within_budget_witness :
  unique_keys sample_pairs = true
  /\ (forall c, In (JList c) (split_chunks 20 (JList sample_items)) ->
        ((1 < List.length c)%nat -> estimate list_item_size c <= 20)
        /\ (20 < estimate list_item_size c ->
            exists e, c = [e] /\ 20 - 2 < list_item_size e))
  /\ (forall c, In (JDict c) (split_chunks 20 (JDict sample_pairs)) ->
        ((1 < List.length c)%nat -> estimate dict_item_size c <= 20)
        /\ (20 < estimate dict_item_size c ->
            exists kv, c = [kv] /\ 20 - 2 < dict_item_size kv)).
Proof.
  split; [reflexivity |].
  destruct (chunks_within_budget 20 sample_items sample_pairs) as [Hl Hd].
  split; [exact Hl | apply Hd; reflexivity].
Defined.

(** C3. An element whose own serialized size is over [budget - 3] bytes (an
    item [e] of a list, a pair [kv] of a dict, the pair measured as the
    source measures it, as the one-pair dict) is alone in its chunk: the
    chunks before it are those of the elements before it, so what had been
    accumulated is closed as a chunk of its own first, the element is a chunk
    of one, and the elements after it start afresh. *)
Theorem oversized_element_isolated
        (budget : Z) (pre post : list json) (e : json)
        (dpre dpost : pydict) (kv : string * json) :
  (budget - 3 < byte_len (dumps e) ->
   split_chunks budget (JList (pre ++ e :: post))
   = split_chunks budget (JList pre)
       ++ JList [e] :: split_chunks budget (JList post)
   /\ (forall c, In (JList c) (split_chunks budget (JList (pre ++ e :: post))) ->
                 In e c -> c = [e]))
  /\ (budget - 3 < byte_len (dumps (JDict [kv])) ->
      unique_keys (dpre ++ kv :: dpost) = true ->
      split_chunks budget (JDict (dpre ++ kv :: dpost))
      = map JDict (split_dict budget dpre)
          ++ JDict [kv] :: map JDict (split_dict budget dpost)
      /\ (forall c, In (JDict c)
                       (split_chunks budget (JDict (dpre ++ kv :: dpost))) ->
                    In kv c -> c = [kv])).
Proof.
  split.
  - intros He.
    assert (He' : budget - 3 < list_item_size e) by (unfold list_item_size; lia).
    split.
    + cbn [split_chunks]. unfold split_list.
      rewrite (greedy_chunks_isolated list_item_size budget list_item_size_pos
                 pre post e He').
      rewrite map_app. reflexivity.
    + intros c Hc Hec. apply in_map_JList in Hc.
      apply (chunk_ok_isolates list_item_size budget list_item_size_pos);
        [| exact Hec | exact He'].
      pose proof (greedy_chunks_ok list_item_size budget (pre ++ e :: post)) as Hok.
      rewrite Forall_forall in Hok. apply Hok, Hc.
  - intros Hkv Hkeys. fold (dict_item_size kv) in Hkv.
    assert (Hin : In kv (dpre ++ kv :: dpost)).
    { apply in_or_app. right. left. reflexivity. }
    pose proof (large_pair_no_shortcut budget _ kv Hin Hkv) as Hlong.
    destruct (split_chunks_dict budget _ Hkeys) as [[Hfit _] | [_ Hsplit]];
      [exfalso; lia |].
    destruct (unique_keys_app _ _ Hkeys) as [Hpre Hpost].
    apply unique_keys_tail in Hpost.
    split.
    + rewrite Hsplit, !split_dict_append by assumption.
      rewrite (greedy_chunks_isolated dict_item_size budget dict_item_size_pos
                 dpre dpost kv Hkv).
      rewrite map_app. reflexivity.
    + intros c Hc Hkc. rewrite Hsplit in Hc. apply in_map_JDict in Hc.
      apply (chunk_ok_isolates dict_item_size budget dict_item_size_pos);
        [| exact Hkc | exact Hkv].
      pose proof (greedy_chunks_ok dict_item_size budget (dpre ++ kv :: dpost))
        as Hok.
      rewrite Forall_forall in Hok. apply Hok, Hc.
Qed.

Lemma oversized_element_isolated_witness :
  20 - 3 < byte_len (dumps (JStr "a long skin name"))
  /\ 20 - 3 < byte_len (dumps (JDict [("c", JStr "desert eagle")%string]))
  /\ split_chunks 20 (JList ([JInt 1; JInt 2] ++ JStr "a long skin name" :: [JInt 3]))
     = [JList [JInt 1; JInt 2]; JList [JStr "a long skin name"]; JList [JInt 3]]
  /\ split_chunks 20 (JDict ([("a", JInt 1)] ++ ("c", JStr "desert eagle")
                               :: [("b", JInt 2)]))%string
     = [JDict [("a", JInt 1)]; JDict [("c", JStr "desert eagle")];
        JDict [("b", JInt 2)]]%string.
Proof.
  assert (He : 20 - 3 < byte_len (dumps (JStr "a long skin name")))
    by (vm_compute; reflexivity).
  assert (Hkv : 20 - 3 < byte_len (dumps (JDict [("c", JStr "desert eagle")%string])))
    by (vm_compute; reflexivity).
  destruct (oversized_element_isolated 20 [JInt 1; JInt 2] [JInt 3]
              (JStr "a long skin name")
              [("a", JInt 1)]%string [("b", JInt 2)]%string
              ("c", JStr "desert eagle")%string)
    as [Hl Hd].
  split; [exact He |]. split; [exact Hkv |].
  split; [exact (proj1 (Hl He)) | exact (proj1 (Hd Hkv eq_refl))].
Defined.

(** C4, as stated, fails for dicts: with the pair [("a", 1)] in the chunk in
    progress the accumulator is 10, the 2 of the brackets and the 8 bytes of
    the one-pair dict; counting one more byte for the pair gives 11. *)
Lemma pair_estimate_without_separator :
  let st := loop_run dict_item_size dict_setitem 100 [("a"%string, JInt 1)] in
  current_size st = 10
  /\ current_size st
     <> 2 + sum_sizes (fun kv => byte_len (dumps (JDict [kv])) + 1)
                      (current_chunk st).
Proof. vm_compute. split; [reflexivity | discriminate]. Qed.

(** The chunk boundaries show it: at budget 18 the source keeps two pairs of
    8 bytes together (2 + 8 + 8 = 18), which a separator byte for each pair
    would split (2 + 9 + 9 = 20). *)
Lemma pair_estimate_moves_boundaries :
  split_chunks 18 (JDict [("a", JInt 1); ("b", JInt 2)]%string)
  = [JDict [("a", JInt 1); ("b", JInt 2)]%string]
  /\ greedy_chunks (fun kv => byte_len (dumps (JDict [kv])) + 1) dict_setitem 18
                   [("a", JInt 1); ("b", JInt 2)]%string
     = [[("a", JInt 1)]; [("b", JInt 2)]]%string.
Proof. vm_compute. split; reflexivity. Qed.

(** C4, amended.  After any number of turns of either loop the accumulator
    is 2 plus the estimates of the elements of the chunk in progress: for a
    list item its serialized byte length plus one, for a pair of a dict the
    byte length of the one-pair dict [{key: value}] and nothing more. *)
Theorem size_estimate_accumulated
        (budget : Z) (items : list json) (pairs : pydict) (n : nat) :
  (let st := loop_run list_item_size list_append budget (firstn n items) in
   current_size st
   = 2 + sum_sizes (fun item => byte_len (dumps item) + 1) (current_chunk st))
  /\ (unique_keys pairs = true ->
      let st := loop_run dict_item_size dict_setitem budget (firstn n pairs) in
      current_size st
      = 2 + sum_sizes (fun kv => byte_len (dumps (JDict [kv]))) (current_chunk st)).
Proof.
  split; cbv zeta.
  - apply (inv_size _ _ _ (loop_run_inv list_item_size budget (firstn n items))).
  - intros Hkeys. assert (Hnd : NoDup (map fst (firstn n pairs))).
    { apply unique_keys_NoDup in Hkeys.
      rewrite <- (firstn_skipn n pairs), map_app in Hkeys.
      eapply NoDup_app_remove_r. exact Hkeys. }
    unfold loop_run. rewrite fold_body_fresh; [| exact Hnd | intros k []].
    apply (inv_size _ _ _ (loop_run_inv dict_item_size budget (firstn n pairs))).
Qed.

Lemma size_estimate_accumulated_witness :
  unique_keys sample_pairs = true
  /\ current_size (loop_run list_item_size list_append 20 (firstn 2 sample_items))
     = 2 + sum_sizes (fun item => byte_len (dumps item) + 1)
                     (current_chunk (loop_run list_item_size list_append 20
                                              (firstn 2 sample_items)))
  /\ current_size (loop_run dict_item_size dict_setitem 20 (firstn 2 sample_pairs))
     = 2 + sum_sizes (fun kv => byte_len (dumps (JDict [kv])))
                     (current_chunk (loop_run dict_item_size dict_setitem 20
                                              (firstn 2 sample_pairs))).
Proof.
  split; [reflexivity |].
  destruct (size_estimate_accumulated 20 sample_items sample_pairs 2) as [Hl Hd].
  split; [exact Hl | apply Hd; reflexivity].
Defined.

(** C5, as stated, fails: four items of estimate 30 at budget 65 do not give
    three chunks.  The third item closes the first chunk (62 + 30 > 65) and
    the fourth joins it (2 + 30 + 30 = 62 <= 65). *)
Lemma four_items_of_30_not_three_chunks :
  list_item_size item0 = 30 /\ list_item_size item1 = 30
  /\ list_item_size item2 = 30 /\ list_item_size item3 = 30
  /\ split_chunks 65 (JList [item0; item1; item2; item3])
     <> [JList [item0; item1]; JList [item2]; JList [item3]].
Proof. vm_compute. repeat split; discriminate. Qed.

(** C5, amended.  Four list items of estimate 30 each, at budget 65, give the
    two chunks [[item0, item1], [item2, item3]]. *)
Theorem four_items_of_30 (i0 i1 i2 i3 : json)
        (H0 : list_item_size i0 = 30) (H1 : list_item_size i1 = 30)
        (H2 : list_item_size i2 = 30) (H3 : list_item_size i3 = 30) :
  split_chunks 65 (JList [i0; i1; i2; i3]) = [JList [i0; i1]; JList [i2; i3]].
Proof.
  cbn [split_chunks]. unfold split_list, greedy_chunks, loop_run.
  cbn [fold_left]. set (body := loop_body list_item_size list_append 65).
  assert (T0 : body loop_init i0 = mk_state [] [i0] 32)
    by (unfold body, loop_body; rewrite H0; reflexivity).
  assert (T1 : body (mk_state [] [i0] 32) i1 = mk_state [] [i0; i1] 62)
    by (unfold body, loop_body; rewrite H1; reflexivity).
  assert (T2 : body (mk_state [] [i0; i1] 62) i2 = mk_state [[i0; i1]] [i2] 32)
    by (unfold body, loop_body; rewrite H2; reflexivity).
  assert (T3 : body (mk_state [[i0; i1]] [i2] 32) i3
               = mk_state [[i0; i1]] [i2; i3] 62)
    by (unfold body, loop_body; rewrite H3; reflexivity).
  rewrite T0, T1, T2, T3. reflexivity.
Qed.

Lemma four_items_of_30_witness :
  list_item_size item0 = 30
  /\ split_chunks 65 (JList [item0; item1; item2; item3])
     = [JList [item0; item1]; JList [item2; item3]].
Proof.
  split; [reflexivity |].
  apply (four_items_of_30 item0 item1 item2 item3); reflexivity.
Defined.

(** C6. A dict whose encoding with [indent=2] is no longer than the budget is
    returned as one chunk, the dict itself. *)
Theorem small_dict_kept_whole (budget : Z) (pairs : pydict)
        (Hfit : byte_len (dumps_indent (JDict pairs)) <= budget) :
  split_chunks budget (JDict pairs) = [JDict pairs].
Proof.
  unfold split_chunks.
  destruct (Z.leb_spec (byte_len (dumps_indent (JDict pairs))) budget);
    [reflexivity | lia].
Qed.

Lemma small_dict_kept_whole_witness :
  byte_len (dumps_indent (JDict sample_pairs)) <= MAX_FILE_SIZE
  /\ split_chunks MAX_FILE_SIZE (JDict sample_pairs) = [JDict sample_pairs].
Proof.
  assert (Hfit : byte_len (dumps_indent (JDict sample_pairs)) <= MAX_FILE_SIZE)
    by (vm_compute; discriminate).
  split; [exact Hfit |].
  apply (small_dict_kept_whole MAX_FILE_SIZE sample_pairs Hfit).
Defined.

(** C7. The empty list gives no chunk at all, whatever the budget: no file is
    written and the count returned is 0. *)
Theorem empty_list_no_chunks (budget : Z) (output_dir : string) :
  split_chunks budget (JList []) = []
  /\ split_json_data_with budget (JList []) output_dir = ([], 0).
Proof. split; reflexivity. Qed.

(** C8. A value that is neither a list nor a dict is returned as the one
    chunk, unchanged, and the budget plays no part: every budget gives the
    same chunks. *)
Theorem scalar_passes_through (budget budget' : Z) (v : json)
        (Hshape : is_container v = false) :
  split_chunks budget v = [v]
  /\ split_chunks budget v = split_chunks budget' v.
Proof.
  destruct v; try discriminate Hshape; split; reflexivity.
Qed.

Lemma scalar_passes_through_witness :
  is_container (JStr "glock-18") = false
  /\ split_chunks 1 (JStr "glock-18") = [JStr "glock-18"]
  /\ split_chunks 1 (JStr "glock-18") = split_chunks MAX_FILE_SIZE (JStr "glock-18").
Proof.
  split; [reflexivity |].
  apply (scalar_passes_through 1 MAX_FILE_SIZE (JStr "glock-18")). reflexivity.
Defined.



(** C10, as stated, fails for the empty dict: its indented encoding is the two
    bytes of the braces, so any budget from 2 on returns it whole, as one
    chunk without a single pair. *)
Lemma empty_dict_is_an_empty_chunk :
  split_chunks MAX_FILE_SIZE (JDict []) = [JDict []]
  /\ In (JDict []) (split_chunks MAX_FILE_SIZE (JDict [])).
Proof. vm_compute. split; [reflexivity | left; reflexivity]. Qed.

(** C10, amended.  No chunk of a list is empty, and no chunk that either loop
    closes is: a flush on overflow, a flush before an oversized element and
    the flush after the loop each emit at least one element.  A chunk of a
    dict is empty only when the dict itself is empty and is returned whole. *)
Theorem flushed_chunks_nonempty (budget : Z) (items : list json) (pairs : pydict) :
  (forall c, In (JList c) (split_chunks budget (JList items)) -> c <> [])
  /\ (unique_keys pairs = true ->
      (forall c, In c (split_dict budget pairs) -> c <> [])
      /\ (forall c, In (JDict c) (split_chunks budget (JDict pairs)) ->
                    c = [] ->
                    pairs = []
                    /\ split_chunks budget (JDict pairs) = [JDict pairs])).
Proof.
  split.
  - intros c Hin. apply in_map_JList in Hin.
    pose proof (greedy_chunks_ok list_item_size budget items) as Hok.
    rewrite Forall_forall in Hok. apply (Hok c Hin).
  - intros Hkeys.
    assert (Hd : forall c, In c (split_dict budget pairs) -> c <> []).
    { intros c Hin. rewrite split_dict_append in Hin by exact Hkeys.
      pose proof (greedy_chunks_ok dict_item_size budget pairs) as Hok.
      rewrite Forall_forall in Hok. apply (Hok c Hin). }
    split; [exact Hd |].
    intros c Hin Hempty.
    destruct (split_chunks_dict budget pairs Hkeys) as [[_ Heq] | [_ Heq]];
      rewrite Heq in Hin.
    + destruct Hin as [Hc | []]. injection Hc as ->.
      split; [exact Hempty | exact Heq].
    + apply in_map_JDict in Hin.
      rewrite <- split_dict_append in Hin by exact Hkeys.
      exfalso. exact (Hd c Hin Hempty).
Qed.

Lemma flushed_chunks_nonempty_witness :
  unique_keys sample_pairs = true
  /\ (forall c, In (JList c) (split_chunks 20 (JList sample_items)) -> c <> [])
  /\ (forall c, In c (split_dict 20 sample_pairs) -> c <> [])
  /\ (forall c, In (JDict c) (split_chunks 20 (JDict sample_pairs)) ->
                c = [] ->
                sample_pairs = []
                /\ split_chunks 20 (JDict sample_pairs) = [JDict sample_pairs]).
Proof.
  split; [reflexivity |].
  destruct (flushed_chunks_nonempty 20 sample_items sample_pairs) as [Hl Hd].
  split; [exact Hl | apply Hd; reflexivity].
Defined.


(** * Further properties of the chunker *)

Section GreedyMore.
Context {A : Type}.
Variable item_size : A -> Z.
Variable budget : Z.
Hypothesis item_size_pos : forall a, 0 < item_size a.

Abbreviation body := (loop_body item_size list_append budget).
Abbreviation pack := (greedy_chunks item_size list_append budget).
Abbreviation est := (estimate item_size).
Abbreviation tight := (tight_break item_size budget).
Abbreviation chain_inv := (chain_inv item_size budget).

Lemma estimate_snoc (c : list A) (x : A) :
  est (c ++ [x]) = est c + item_size x.
Proof.
  unfold estimate. rewrite sum_sizes_app. unfold sum_sizes. cbn [fold_right]. lia.
Qed.

(** Elements that fit together with the chunk in progress all join it. *)
Lemma fold_body_fits (data : list A) :
  forall (cs : list (list A)) (cur : list A),
    est (cur ++ data) <= budget ->
    fold_left body data (mk_state cs cur (est cur))
    = mk_state cs (cur ++ data) (est (cur ++ data)).
Proof.
  induction data as [|x data IH]; intros cs cur Hfit; cbn [fold_left].
  - rewrite app_nil_r. reflexivity.
  - assert (Hsplit : est (cur ++ x :: data)
                     = est cur + item_size x + sum_sizes item_size data).
    { unfold estimate. rewrite sum_sizes_app. unfold sum_sizes.
      cbn [fold_right]. lia. }
    pose proof (sum_sizes_nonneg item_size item_size_pos data).
    pose proof (sum_sizes_nonneg item_size item_size_pos cur).
    assert (Hstep : body (mk_state cs cur (est cur)) x
                    = mk_state cs (cur ++ [x]) (est (cur ++ [x]))).
    { unfold loop_body. cbn [chunks current_chunk current_size].
      destruct (Z.gtb_spec (item_size x) (budget - 2));
        [exfalso; unfold estimate in *; lia |].
      destruct (Z.gtb_spec (est cur + item_size x) budget);
        [exfalso; lia |].
      rewrite estimate_snoc. reflexivity. }
    rewrite Hstep, IH; rewrite <- app_assoc; [reflexivity | exact Hfit].
Qed.

Lemma greedy_chunks_fits (data : list A) :
  data <> [] -> est data <= budget -> pack data = [data].
Proof.
  intros Hne Hfit. unfold greedy_chunks, loop_run, loop_init.
  change 2 with (est []) at 1.
  rewrite (fold_body_fits data [] []) by exact Hfit.
  unfold loop_finish. cbn [current_chunk chunks app].
  destruct data; [congruence | reflexivity].
Qed.

Lemma chunks_length_le (cs : list (list A)) :
  Forall (fun c => c <> []) cs ->
  (List.length cs <= List.length (List.concat cs))%nat.
Proof.
  induction 1 as [|c cs Hc _ IH]; cbn [List.concat List.length]; [lia |].
  rewrite length_app. destruct c; [congruence | cbn [List.length]; lia].
Qed.

Lemma greedy_chunks_count (data : list A) :
  (List.length (pack data) <= List.length data)%nat.
Proof.
  rewrite <- (greedy_chunks_concat item_size budget data) at 2.
  apply chunks_length_le.
  eapply Forall_impl; [| apply greedy_chunks_ok].
  intros c [Hne _]. exact Hne.
Qed.

Lemma greedy_chunks_nil (data : list A) : pack data = [] <-> data = [].
Proof.
  split.
  - intros Hnil. rewrite <- (greedy_chunks_concat item_size budget data), Hnil.
    reflexivity.
  - intros ->. reflexivity.
Qed.

(** Adjacent chunks, as a chain. *)
Lemma Sorted_middle (R : list A -> list A -> Prop) (l1 l2 : list (list A))
      (a b : list A) :
  Sorted R (l1 ++ a :: b :: l2) -> R a b.
Proof.
  induction l1 as [|c l1 IH]; cbn [app]; intros Hs.
  - apply Sorted_inv in Hs. destruct Hs as [_ Hhd]. inversion Hhd. assumption.
  - apply Sorted_inv in Hs. apply IH, Hs.
Qed.

Lemma Sorted_snoc (R : list A -> list A -> Prop) (l : list (list A))
      (c : list A) :
  Sorted R l ->
  (forall l' p, l = l' ++ [p] -> R p c) ->
  Sorted R (l ++ [c]).
Proof.
  induction l as [|a l IH]; intros Hs Hlast; cbn [app].
  - repeat constructor.
  - apply Sorted_inv in Hs. destruct Hs as [Hs Hhd]. constructor.
    + apply IH; [exact Hs |]. intros l' p ->. apply (Hlast (a :: l') p).
      reflexivity.
    + destruct l as [|b l]; cbn [app].
      * constructor. apply (Hlast [] a). reflexivity.
      * constructor. inversion Hhd. assumption.
Qed.

Lemma Sorted_last_head (R : list A -> list A -> Prop) (l : list (list A))
      (c c2 : list A) :
  Sorted R (l ++ [c]) -> (forall p, R p c -> R p c2) -> Sorted R (l ++ [c2]).
Proof.
  induction l as [|a l IH]; intros Hs Himp; cbn [app] in *.
  - repeat constructor.
  - apply Sorted_inv in Hs. destruct Hs as [Hs Hhd]. constructor.
    + apply IH; assumption.
    + destruct l as [|b l]; cbn [app] in *.
      * constructor. apply Himp. inversion Hhd. assumption.
      * constructor. inversion Hhd. assumption.
Qed.

Lemma loop_finish_snoc_inj (l l' : list (list A)) (p q : list A) :
  l ++ [p] = l' ++ [q] -> p = q.
Proof. intros H. apply app_inj_tail in H. tauto. Qed.

Lemma loop_body_chain (st : loop_state A) (x : A) :
  loop_inv item_size budget st -> chain_inv st -> chain_inv (body st x).
Proof.
  intros [Hsize _ _] [Hchain Hempty]. unfold chain_inv, loop_body.
  destruct (Z.gtb_spec (item_size x) (budget - 2)) as [Hbig | Hsmall].
  - assert (Heq : mk_state (chunks (flush_current st) ++ [[x]])
                           (current_chunk (flush_current st))
                           (current_size (flush_current st))
                  = mk_state (loop_finish st ++ [[x]]) [] 2).
    { unfold flush_current, loop_finish.
      destruct (current_chunk st) eqn:E; cbn [chunks current_chunk current_size];
        [rewrite ?E, Hsize; rewrite ?E |]; reflexivity. }
    rewrite Heq. unfold loop_finish at 1. cbn [chunks current_chunk]. split.
    + apply Sorted_snoc; [exact Hchain |]. intros _ p _. left. exact Hbig.
    + intros _. right. exists (loop_finish st), x. split; [reflexivity | exact Hbig].
  - destruct (Z.gtb_spec (current_size st + item_size x) budget) as [Hover | Hfit].
    + assert (Hne : current_chunk st <> []).
      { intros E. rewrite Hsize, E in Hover. unfold estimate, sum_sizes in Hover.
        cbn [fold_right] in Hover. lia. }
      assert (Hfin : loop_finish st = chunks st ++ [current_chunk st]).
      { unfold loop_finish. destruct (current_chunk st); [congruence | reflexivity]. }
      unfold loop_finish at 1. cbn [chunks current_chunk]. split; [| discriminate].
      rewrite <- Hfin. apply Sorted_snoc; [exact Hchain |].
      intros l' p Hl. rewrite Hfin in Hl. apply loop_finish_snoc_inj in Hl.
      subst p. right. right. rewrite <- Hsize. exact Hover.
    + unfold loop_finish at 1. cbn [chunks current_chunk]. unfold list_append.
      destruct (current_chunk st) as [|y cur] eqn:E.
      * cbn [app]. split; [| discriminate].
        unfold loop_finish in Hchain. rewrite E in Hchain.
        apply Sorted_snoc; [exact Hchain |]. intros l' p Hl.
        destruct (Hempty eq_refl) as [Hnil | [cs [e [Hcs He]]]].
        -- rewrite Hnil in Hl. destruct l'; discriminate.
        -- rewrite Hcs in Hl. apply loop_finish_snoc_inj in Hl. subst p.
           right. left. exists e. split; [reflexivity | exact He].
      * cbn [app]. split; [| discriminate].
        unfold loop_finish in Hchain. rewrite E in Hchain.
        apply (Sorted_last_head _ _ (y :: cur)); [exact Hchain |].
        intros p Hp. exact Hp.
Qed.

Lemma greedy_chunks_chain (data : list A) : Sorted tight (pack data).
Proof.
  unfold greedy_chunks, loop_run.
  assert (H : forall st, loop_inv item_size budget st -> chain_inv st ->
                         chain_inv (fold_left body data st)).
  { induction data as [|x data IH]; intros st Hinv Hch; cbn [fold_left].
    - exact Hch.
    - apply IH; [apply loop_body_inv, Hinv | apply loop_body_chain; assumption]. }
  apply H.
  - apply loop_init_inv.
  - split; [constructor | intros _; left; reflexivity].
Qed.

End GreedyMore.

Lemma sum_sizes_plus {A : Type} (f : A -> Z) (k : Z) (l : list A) :
  sum_sizes (fun x => f x + k) l = sum_sizes f l + k * Z.of_nat (List.length l).
Proof.
  unfold sum_sizes. induction l as [|x l IH]; cbn [fold_right List.length].
  - lia.
  - rewrite IH, Nat2Z.inj_succ. lia.
Qed.

Lemma map_JList_inj (l l' : list (list json)) : map JList l = map JList l' -> l = l'.
Proof.
  revert l'. induction l as [|c l IH]; intros [|c' l'] H; try discriminate.
  - reflexivity.
  - cbn [map] in H. injection H as -> H. rewrite (IH _ H). reflexivity.
Qed.

Lemma map_JDict_inj (l l' : list pydict) : map JDict l = map JDict l' -> l = l'.
Proof.
  revert l'. induction l as [|c l IH]; intros [|c' l'] H; try discriminate.
  - reflexivity.
  - cbn [map] in H. injection H as -> H. rewrite (IH _ H). reflexivity.
Qed.

Lemma save_chunks_combine (output_dir : string) (cs : list json) (i : nat) :
  save_chunks output_dir i cs
  = map (fun ic => (chunk_path output_dir (fst ic), dumps_indent (snd ic)))
        (combine (seq i (List.length cs)) cs).
Proof.
  revert i. induction cs as [|c cs IH]; intros i;
    cbn [save_chunks List.length seq combine map]; [reflexivity |].
  rewrite IH. reflexivity.
Qed.

Lemma save_chunks_paths (output_dir : string) (cs : list json) (i : nat) :
  map fst (save_chunks output_dir i cs)
  = map (chunk_path output_dir) (seq i (List.length cs)).
Proof.
  revert i. induction cs as [|c cs IH]; intros i;
    cbn [save_chunks List.length seq map fst]; [reflexivity |].
  rewrite IH. reflexivity.
Qed.

Lemma append_inv_head (a b c : string) : (a ++ b = a ++ c)%string -> b = c.
Proof.
  induction a as [|x a IH]; cbn [append]; intros H; [exact H |].
  injection H as H. apply IH, H.
Qed.

Lemma string_length_append (a b : string) :
  String.length (a ++ b) = (String.length a + String.length b)%nat.
Proof. induction a as [|x a IH]; cbn [append String.length]; [| rewrite IH]; reflexivity. Qed.

Lemma append_inv_tail (a b c : string) : (a ++ c = b ++ c)%string -> a = b.
Proof.
  revert b. induction a as [|x a IH]; intros [|y b] H; cbn [append] in H.
  - reflexivity.
  - exfalso. apply (f_equal String.length) in H.
    cbn [String.length] in H. rewrite string_length_append in H. lia.
  - exfalso. apply (f_equal String.length) in H.
    cbn [String.length] in H. rewrite string_length_append in H. lia.
  - injection H as -> H. rewrite (IH _ H). reflexivity.
Qed.

Lemma to_uint_nonnil (n : nat) : Nat.to_uint n <> Decimal.Nil.
Proof.
  rewrite <- (DecimalNat.Unsigned.of_to n) at 1.
  rewrite DecimalNat.Unsigned.to_of. apply DecimalFacts.unorm_nonnil.
Qed.

Lemma string_of_uint_inj (n m : nat) :
  NilZero.string_of_uint (Nat.to_uint n) = NilZero.string_of_uint (Nat.to_uint m) ->
  n = m.
Proof.
  intros H. apply DecimalNat.Unsigned.to_uint_inj.
  assert (Hn := NilZero.usu (Nat.to_uint n) (to_uint_nonnil n)).
  assert (Hm := NilZero.usu (Nat.to_uint m) (to_uint_nonnil m)).
  rewrite H in Hn. congruence.
Qed.

Lemma NoDup_map_injective {X Y : Type} (f : X -> Y) (l : list X) :
  (forall a b, f a = f b -> a = b) -> NoDup l -> NoDup (map f l).
Proof.
  intros Hinj. induction 1 as [|a l Hnotin _ IH]; cbn [map]; constructor.
  - rewrite in_map_iff. intros [b [Hb Hin]]. apply Hinj in Hb. subst b.
    exact (Hnotin Hin).
  - exact IH.
Qed.

Lemma chunk_path_inj (output_dir : string) (i j : nat) :
  chunk_path output_dir i = chunk_path output_dir j -> i = j.
Proof.
  unfold chunk_path. intros H.
  apply append_inv_head, append_inv_head, append_inv_tail in H.
  apply string_of_uint_inj, H.
Qed.

(** X1. The count [split_json_data] returns for a list is at most the number
    of its items and is 0 only for the empty list; for a dict with at least
    one pair it is between 1 and the number of pairs. *)
Theorem chunk_count_bounds (budget : Z) (items : list json) (pairs : pydict)
        (output_dir : string) :
  (0 <= snd (split_json_data_with budget (JList items) output_dir)
        <= Z.of_nat (List.length items)
   /\ (snd (split_json_data_with budget (JList items) output_dir) = 0
       <-> items = []))
  /\ (unique_keys pairs = true -> pairs <> [] ->
      1 <= snd (split_json_data_with budget (JDict pairs) output_dir)
        <= Z.of_nat (List.length pairs)).
Proof.
  unfold split_json_data_with. cbn [snd]. split.
  - cbn [split_chunks]. rewrite length_map. unfold split_list.
    pose proof (greedy_chunks_count list_item_size budget items) as Hle.
    pose proof (greedy_chunks_nil list_item_size budget items) as Hnil.
    split; [lia |]. rewrite <- Hnil.
    destruct (greedy_chunks list_item_size list_append budget items);
      cbn [List.length]; split; intros H; try reflexivity; try discriminate; lia.
  - intros Hkeys Hne.
    assert (Hlen : (1 <= List.length pairs)%nat)
      by (destruct pairs; [congruence | cbn [List.length]; lia]).
    destruct (split_chunks_dict budget pairs Hkeys) as [[_ ->] | [_ ->]].
    + cbn [List.length]. lia.
    + rewrite length_map.
      pose proof (greedy_chunks_count dict_item_size budget pairs) as Hle.
      pose proof (greedy_chunks_nil dict_item_size budget pairs) as Hnil.
      destruct (greedy_chunks dict_item_size list_append budget pairs) eqn:E.
      * exfalso. apply Hne, Hnil. reflexivity.
      * cbn [List.length] in *. lia.
Qed.

Lemma chunk_count_bounds_witness :
  unique_keys sample_pairs = true /\ sample_pairs <> []
  /\ 1 <= snd (split_json_data_with 20 (JDict sample_pairs) "data/skins")
       <= Z.of_nat (List.length sample_pairs).
Proof.
  split; [reflexivity |]. split; [discriminate |].
  apply (chunk_count_bounds 20 sample_items sample_pairs "data/skins");
    [reflexivity | discriminate].
Defined.

(** X2. A non-empty list whose estimate as one chunk, 2 plus the estimates of
    all its items, is within the budget is returned as that one chunk; and a
    list of two or more items that comes back as one chunk has such an
    estimate. *)
Theorem fitting_list_single_chunk (budget : Z) (items : list json) :
  (items <> [] -> estimate list_item_size items <= budget ->
   split_chunks budget (JList items) = [JList items])
  /\ ((1 < List.length items)%nat ->
      split_chunks budget (JList items) = [JList items] ->
      estimate list_item_size items <= budget).
Proof.
  split.
  - intros Hne Hfit. cbn [split_chunks]. unfold split_list.
    rewrite (greedy_chunks_fits list_item_size budget list_item_size_pos items Hne Hfit).
    reflexivity.
  - intros Hlen Heq. cbn [split_chunks] in Heq.
    apply (map_JList_inj _ [items]) in Heq.
    pose proof (greedy_chunks_ok list_item_size budget items) as Hok.
    unfold split_list in Heq. rewrite Heq in Hok.
    apply Forall_inv in Hok.
    destruct (chunk_ok_budget list_item_size budget items Hok) as [Hmany _].
    apply Hmany, Hlen.
Qed.

Lemma fitting_list_single_chunk_witness :
  sample_items <> [] /\ estimate list_item_size sample_items <= 100
  /\ split_chunks 100 (JList sample_items) = [JList sample_items].
Proof.
  assert (Hfit : estimate list_item_size sample_items <= 100)
    by (vm_compute; discriminate).
  split; [discriminate |]. split; [exact Hfit |].
  apply (fitting_list_single_chunk 100 sample_items); [discriminate | exact Hfit].
Defined.

(** X3. Chunks are never closed early: where a chunk [c] is followed by a
    chunk [c'], the first element of [c'] is oversized, or [c] is a single
    oversized element, or the estimate of [c] with that element added is over
    the budget. *)
Theorem adjacent_chunks_tight (budget : Z) (items : list json) (pairs : pydict) :
  (forall cs1 cs2 c c',
      split_chunks budget (JList items) = cs1 ++ JList c :: JList c' :: cs2 ->
      tight_break list_item_size budget c c')
  /\ (unique_keys pairs = true ->
      forall cs1 cs2 c c',
        split_chunks budget (JDict pairs) = cs1 ++ JDict c :: JDict c' :: cs2 ->
        tight_break dict_item_size budget c c').
Proof.
  split.
  - intros cs1 cs2 c c' Heq. cbn [split_chunks] in Heq.
    apply map_eq_app in Heq. destruct Heq as [l1 [l2 [Hl [_ Hl2]]]].
    apply map_eq_cons in Hl2. destruct Hl2 as [a [l3 [-> [Ha Hl3]]]].
    apply map_eq_cons in Hl3. destruct Hl3 as [b [l4 [-> [Hb _]]]].
    injection Ha as ->. injection Hb as ->.
    pose proof (greedy_chunks_chain list_item_size budget items) as Hch.
    unfold split_list in Hl. rewrite Hl in Hch.
    apply (Sorted_middle _ _ _ _ _ Hch).
  - intros Hkeys cs1 cs2 c c' Heq.
    destruct (split_chunks_dict budget pairs Hkeys) as [[_ Hw] | [_ Hs]].
    + rewrite Hw in Heq. exfalso.
      apply (f_equal (@List.length json)) in Heq.
      rewrite length_app in Heq. cbn [List.length] in Heq. lia.
    + rewrite Hs in Heq.
      apply map_eq_app in Heq. destruct Heq as [l1 [l2 [Hl [_ Hl2]]]].
      apply map_eq_cons in Hl2. destruct Hl2 as [a [l3 [-> [Ha Hl3]]]].
      apply map_eq_cons in Hl3. destruct Hl3 as [b [l4 [-> [Hb _]]]].
      injection Ha as ->. injection Hb as ->.
      pose proof (greedy_chunks_chain dict_item_size budget pairs) as Hch.
      rewrite Hl in Hch. apply (Sorted_middle _ _ _ _ _ Hch).
Qed.

Lemma adjacent_chunks_tight_witness :
  unique_keys sample_pairs = true
  /\ split_chunks 20 (JDict sample_pairs)
     = [] ++ JDict [("a", JInt 1); ("b", JInt 2)]%string
          :: JDict [("c", JStr "desert eagle")]%string
          :: [JDict [("d", JList [])]%string; JDict [("e", JFloat "0.25")]%string]
  /\ tight_break dict_item_size 20 [("a", JInt 1); ("b", JInt 2)]%string
                 [("c", JStr "desert eagle")]%string.
Proof.
  split; [reflexivity |]. split; [reflexivity |].
  apply (proj2 (adjacent_chunks_tight 20 sample_items sample_pairs) eq_refl
               [] [JDict [("d", JList [])]%string; JDict [("e", JFloat "0.25")]%string]).
  reflexivity.
Defined.

(** X4. For a dict with at least one pair the whole-dict branch changes
    nothing: the loop over the pairs gives the same chunks.  Only the empty
    dict comes out differently, as one chunk there and as none from the
    loop. *)
Theorem dict_shortcut_same_as_loop (budget : Z) (pairs : pydict)
        (Hkeys : unique_keys pairs = true) (Hne : pairs <> []) :
  split_chunks budget (JDict pairs) = map JDict (split_dict budget pairs).
Proof.
  rewrite split_dict_append by exact Hkeys.
  destruct (split_chunks_dict budget pairs Hkeys) as [[Hfit ->] | [_ ->]];
    [| reflexivity].
  pose proof (estimate_le_indent pairs) as Hest.
  rewrite (greedy_chunks_fits dict_item_size budget dict_item_size_pos pairs Hne)
    by lia.
  reflexivity.
Qed.

Lemma dict_shortcut_same_as_loop_witness :
  unique_keys sample_pairs = true /\ sample_pairs <> []
  /\ split_chunks MAX_FILE_SIZE (JDict sample_pairs)
     = map JDict (split_dict MAX_FILE_SIZE sample_pairs).
Proof.
  split; [reflexivity |]. split; [discriminate |].
  apply (dict_shortcut_same_as_loop MAX_FILE_SIZE sample_pairs);
    [reflexivity | discriminate].
Defined.

(** X5. The files [split_json_data] writes are numbered from 0 without a
    gap, in the order of the chunks: file [i] is [output_dir/i.json] and
    holds chunk [i] encoded with [indent=2]; the count returned is the number
    of files written. *)
Theorem saved_files_numbered (budget : Z) (data : json) (output_dir : string) :
  fst (split_json_data_with budget data output_dir)
  = map (fun ic => (chunk_path output_dir (fst ic), dumps_indent (snd ic)))
        (combine (seq 0 (List.length (split_chunks budget data)))
                 (split_chunks budget data))
  /\ snd (split_json_data_with budget data output_dir)
     = Z.of_nat (List.length (fst (split_json_data_with budget data output_dir))).
Proof.
  unfold split_json_data_with. cbn [fst snd]. split.
  - apply save_chunks_combine.
  - rewrite <- (length_map fst), save_chunks_paths, length_map, length_seq.
    reflexivity.
Qed.

(** X6. No two chunks of a dataset are written to the same path. *)
Theorem saved_paths_distinct (budget : Z) (data : json) (output_dir : string) :
  NoDup (map fst (fst (split_json_data_with budget data output_dir))).
Proof.
  unfold split_json_data_with. cbn [fst]. rewrite save_chunks_paths.
  apply NoDup_map_injective; [| apply seq_NoDup].
  intros i j. apply chunk_path_inj.
Qed.

(** X7. The file written for a chunk is longer than the estimate the chunk
    was packed by: by at least 3 bytes for each item of a list chunk and 2
    for each pair of a dict chunk.  So a chunk packed to within that margin
    of the budget is saved as a file over the budget. *)
Theorem saved_file_exceeds_estimate (budget : Z) (c : list json) (d : pydict) :
  (estimate list_item_size c + 3 * Z.of_nat (List.length c)
   <= byte_len (dumps_indent (JList c)))
  /\ (estimate dict_item_size d + 2 * Z.of_nat (List.length d)
      <= byte_len (dumps_indent (JDict d)))
  /\ (budget < estimate list_item_size c + 3 * Z.of_nat (List.length c) ->
      budget < byte_len (dumps_indent (JList c)))
  /\ (budget < estimate dict_item_size d + 2 * Z.of_nat (List.length d) ->
      budget < byte_len (dumps_indent (JDict d))).
Proof.
  assert (Hl : estimate list_item_size c + 3 * Z.of_nat (List.length c)
               <= byte_len (dumps_indent (JList c))).
  { destruct c as [|x c]; [cbn; lia |].
    unfold dumps_indent. cbn [dumps_indent_at].
    assert (Hj := byte_len_join ("," ++ newline ++ spaces (2 * 1))
                    (map (dumps_indent_at 1) (x :: c)) ltac:(discriminate)).
    rewrite sum_sizes_map in Hj.
    assert (Hle : sum_sizes (fun i => list_item_size i + 3) (x :: c)
                  <= sum_sizes (fun i => byte_len (dumps_indent_at 1 i)
                                  + byte_len ("," ++ newline ++ spaces (2 * 1)))
                       (x :: c)).
    { apply sum_sizes_le, Forall_forall. intros i _. unfold list_item_size.
      autorewrite with bytes. pose proof (dumps_le_indent i 1). lia. }
    rewrite sum_sizes_plus in Hle. rewrite <- Hj in Hle.
    autorewrite with bytes in Hle. autorewrite with bytes.
    unfold estimate. lia. }
  assert (Hd : estimate dict_item_size d + 2 * Z.of_nat (List.length d)
               <= byte_len (dumps_indent (JDict d))).
  { destruct d as [|x d]; [cbn; lia |].
    unfold dumps_indent. cbn [dumps_indent_at].
    assert (Hj := byte_len_join ("," ++ newline ++ spaces (2 * 1))
                    (map (fun kv => encode_basestring (fst kv) ++ ": "
                                      ++ dumps_indent_at 1 (snd kv))%string (x :: d))
                    ltac:(discriminate)).
    rewrite sum_sizes_map in Hj.
    assert (Hle : sum_sizes (fun kv => dict_item_size kv + 2) (x :: d)
                  <= sum_sizes (fun kv => byte_len (encode_basestring (fst kv) ++ ": "
                                          ++ dumps_indent_at 1 (snd kv))
                                  + byte_len ("," ++ newline ++ spaces (2 * 1)))
                       (x :: d)).
    { apply sum_sizes_le, Forall_forall. intros kv _. rewrite dict_item_size_eq.
      autorewrite with bytes. pose proof (dumps_le_indent (snd kv) 1). lia. }
    rewrite sum_sizes_plus in Hle. rewrite <- Hj in Hle.
    autorewrite with bytes in Hle. autorewrite with bytes.
    unfold estimate. lia. }
  repeat split; try assumption; intros; lia.
Qed.

Lemma saved_file_exceeds_estimate_witness :
  estimate list_item_size [item0; item1] = 62
  /\ 65 < estimate list_item_size [item0; item1] + 3 * Z.of_nat 2
  /\ 65 < byte_len (dumps_indent (JList [item0; item1])).
Proof.
  assert (H : 65 < estimate list_item_size [item0; item1] + 3 * Z.of_nat 2)
    by (vm_compute; reflexivity).
  split; [reflexivity |]. split; [exact H |].
  apply (saved_file_exceeds_estimate 65 [item0; item1] []). exact H.
Defined.

(** * The manifests *)

(** ** The manifests and [str.replace] on small inputs *)

Example item_types_json_sample :
  generate_item_types_json
    [("skins", 3); ("unknown", 7); ("stickers_slab", 2); ("stickers", 0)]%string
  = ("[{" ++ dquote ++ "Skins" ++ dquote ++ ":" ++ dquote ++ "skins|3" ++ dquote
          ++ "},{" ++ dquote ++ "Stickers" ++ dquote ++ ":" ++ dquote
          ++ "stickers|0" ++ dquote
          ++ "},{" ++ dquote ++ "Sticker Slabs" ++ dquote ++ ":" ++ dquote
          ++ "stickers_slab|2" ++ dquote ++ "}]")%string.
Proof. reflexivity. Qed.

Example options_yml_sample :
  generate_options_yml [("keys", 2); ("agents", 1)]%string
  = (yml_header
       ++ "    - " ++ dquote ++ "Agents" ++ dquote ++ ": agents|1" ++ newline
       ++ "    - " ++ dquote ++ "Keys" ++ dquote ++ ": keys|2" ++ newline
       ++ yml_footer)%string.
Proof. reflexivity. Qed.

Example str_replace_every_occurrence :
  str_replace "a.json.json" ".json" "" = "a"%string
  /\ str_replace "x.jsonl" ".json" "" = "xl"%string
  /\ str_replace "aXXXb" "XX" "-" = "a-Xb"%string.
Proof. repeat split; reflexivity. Qed.

(** With the default separators [dumps_sep] is [dumps]. *)
Lemma dumps_sep_default (v : json) : dumps_sep ", " ": " v = dumps v.
Proof.
  induction v as [| b | n | r | t | l IH | d IH] using json_nested_ind;
    try reflexivity.
  - destruct l as [|x l]; [reflexivity |]. cbn [dumps_sep dumps].
    f_equal. f_equal. f_equal. apply map_ext_Forall. exact IH.
  - destruct d as [|x d]; [reflexivity |]. cbn [dumps_sep dumps].
    f_equal. f_equal. f_equal. apply map_ext_Forall.
    eapply Forall_impl; [| exact IH]. cbn beta. intros kv Hkv. rewrite Hkv.
    reflexivity.
Qed.


(** ** [sorted] on the items of [file_counts] *)

Lemma item_ltb_spec (a b : string * Z) :
  item_ltb a b = true
  <-> OrderedTypeEx.String_as_OT.lt (fst a) (fst b)
      \/ (fst a = fst b /\ snd a < snd b).
Proof.
  unfold item_ltb.
  destruct (String.compare (fst a) (fst b)) eqn:E.
  - apply OrderedTypeEx.String_as_OT.cmp_eq in E. rewrite Z.ltb_lt. split.
    + intros H. right. split; assumption.
    + intros [H | [_ H]]; [| exact H]. exfalso.
      apply (OrderedTypeEx.String_as_OT.lt_not_eq _ _ H). exact E.
  - apply OrderedTypeEx.String_as_OT.cmp_lt in E. split; [intros _; left; exact E | reflexivity].
  - split; [discriminate |]. intros [H | [H _]]; exfalso.
    + apply OrderedTypeEx.String_as_OT.cmp_lt in H.
      unfold OrderedTypeEx.String_as_OT.cmp in H. congruence.
    + apply OrderedTypeEx.String_as_OT.cmp_eq in H.
      unfold OrderedTypeEx.String_as_OT.cmp in H. congruence.
Qed.

Lemma string_lt_total (x y : string) :
  OrderedTypeEx.String_as_OT.lt x y \/ x = y \/ OrderedTypeEx.String_as_OT.lt y x.
Proof.
  destruct (String.compare x y) eqn:E.
  - right. left. apply OrderedTypeEx.String_as_OT.cmp_eq, E.
  - left. apply OrderedTypeEx.String_as_OT.cmp_lt, E.
  - right. right. apply OrderedTypeEx.String_as_OT.cmp_lt.
    unfold OrderedTypeEx.String_as_OT.cmp.
    rewrite String.compare_antisym, E. reflexivity.
Qed.

Lemma string_lt_asym (x y : string) :
  OrderedTypeEx.String_as_OT.lt x y -> OrderedTypeEx.String_as_OT.lt y x -> False.
Proof.
  intros H1 H2.
  apply (OrderedTypeEx.String_as_OT.lt_not_eq _ _
           (OrderedTypeEx.String_as_OT.lt_trans _ _ _ H1 H2)).
  reflexivity.
Qed.

Lemma item_le_spec (a b : string * Z) :
  item_le a b
  <-> OrderedTypeEx.String_as_OT.lt (fst a) (fst b)
      \/ (fst a = fst b /\ snd a <= snd b).
Proof.
  unfold item_le. rewrite <- not_true_iff_false, item_ltb_spec. split.
  - intros Hn. destruct (string_lt_total (fst a) (fst b)) as [H | [H | H]].
    + left. exact H.
    + right. split; [exact H |].
      destruct (Z.le_gt_cases (snd a) (snd b)); [assumption |].
      exfalso. apply Hn. right. split; [symmetry; exact H | assumption].
    + exfalso. apply Hn. left. exact H.
  - intros [H | [H Hz]] [H' | [H' Hz']].
    + exact (string_lt_asym _ _ H H').
    + rewrite H' in H. apply (OrderedTypeEx.String_as_OT.lt_not_eq _ _ H). reflexivity.
    + rewrite H in H'. apply (OrderedTypeEx.String_as_OT.lt_not_eq _ _ H'). reflexivity.
    + lia.
Qed.

Lemma item_le_trans (a b c : string * Z) : item_le a b -> item_le b c -> item_le a c.
Proof.
  rewrite !item_le_spec. intros [H1 | [H1 Z1]] [H2 | [H2 Z2]].
  - left. exact (OrderedTypeEx.String_as_OT.lt_trans _ _ _ H1 H2).
  - left. rewrite <- H2. exact H1.
  - left. rewrite H1. exact H2.
  - right. split; [congruence | lia].
Qed.

Lemma item_le_antisym (a b : string * Z) : item_le a b -> item_le b a -> a = b.
Proof.
  rewrite !item_le_spec. destruct a as [s1 n1], b as [s2 n2]. cbn [fst snd].
  intros [H1 | [H1 Z1]] [H2 | [H2 Z2]].
  - exfalso. exact (string_lt_asym _ _ H1 H2).
  - exfalso. rewrite H2 in H1. apply (OrderedTypeEx.String_as_OT.lt_not_eq _ _ H1).
    reflexivity.
  - exfalso. rewrite H1 in H2. apply (OrderedTypeEx.String_as_OT.lt_not_eq _ _ H2).
    reflexivity.
  - f_equal; [exact H1 | lia].
Qed.

Lemma item_ltb_le (a b : string * Z) : item_ltb a b = true -> item_le a b.
Proof.
  intros H. apply item_le_spec. apply item_ltb_spec in H.
  destruct H as [H | [H Hz]]; [left; exact H | right; split; [exact H | lia]].
Qed.

Lemma sorted_insert_perm (x : string * Z) (l : counts) :
  Permutation (sorted_insert x l) (x :: l).
Proof.
  induction l as [|y l IH]; cbn [sorted_insert]; [reflexivity |].
  destruct (item_ltb y x); [| reflexivity].
  rewrite IH. apply perm_swap.
Qed.

Lemma sorted_perm (l : counts) : Permutation (sorted l) l.
Proof.
  induction l as [|x l IH]; cbn [sorted fold_right]; [reflexivity |].
  fold (sorted l). rewrite sorted_insert_perm, IH. reflexivity.
Qed.

Lemma sorted_insert_sorted (x : string * Z) (l : counts) :
  StronglySorted item_le l -> StronglySorted item_le (sorted_insert x l).
Proof.
  induction 1 as [|y l Hl IH Hy]; cbn [sorted_insert].
  - repeat constructor.
  - destruct (item_ltb y x) eqn:E.
    + constructor; [exact IH |].
      apply (Permutation_Forall (Permutation_sym (sorted_insert_perm x l))).
      constructor; [apply item_ltb_le, E | exact Hy].
    + constructor; [constructor; assumption |].
      constructor; [exact E |].
      eapply Forall_impl; [| exact Hy]. intros z Hz.
      exact (item_le_trans _ _ _ E Hz).
Qed.

Lemma sorted_sorted (l : counts) : StronglySorted item_le (sorted l).
Proof.
  induction l as [|x l IH]; cbn [sorted fold_right]; [constructor |].
  apply sorted_insert_sorted, IH.
Qed.

Lemma sorted_unique (l1 l2 : counts) :
  StronglySorted item_le l1 -> StronglySorted item_le l2 ->
  Permutation l1 l2 -> l1 = l2.
Proof.
  intros H1. revert l2. induction H1 as [|a l1 Hl1 IH Ha]; intros l2 H2 Hp.
  - apply Permutation_nil in Hp. subst. reflexivity.
  - destruct H2 as [|b l2 Hl2 Hb].
    + apply Permutation_sym, Permutation_nil in Hp. discriminate.
    + assert (Hab : a = b).
      { assert (In a (b :: l2)) as [-> | Hin]
          by (apply (Permutation_in _ Hp); left; reflexivity); [reflexivity |].
        assert (In b (a :: l1)) as [-> | Hin']
          by (apply (Permutation_in _ (Permutation_sym Hp)); left; reflexivity);
          [reflexivity |].
        rewrite Forall_forall in Ha, Hb.
        apply item_le_antisym; [apply Ha, Hin' | apply Hb, Hin]. }
      subst b. f_equal. apply IH; [exact Hl2 |].
      exact (Permutation_cons_inv Hp).
Qed.

Lemma sorted_of_perm (l l' : counts) : Permutation l l' -> sorted l = sorted l'.
Proof.
  intros Hp. apply sorted_unique; try apply sorted_sorted.
  rewrite !sorted_perm. exact Hp.
Qed.

(** ** The two manifests *)

Lemma string_app_assoc (a b c : string) : ((a ++ b) ++ c = a ++ (b ++ c))%string.
Proof. induction a as [|x a IH]; cbn [append]; [| rewrite IH]; reflexivity. Qed.

Lemma string_app_nil_r (a : string) : (a ++ EmptyString)%string = a.
Proof. induction a as [|x a IH]; cbn [append]; [| rewrite IH]; reflexivity. Qed.

Lemma item_types_fold (l : counts) (acc : list json) :
  fold_left
    (fun acc tc =>
       match dict_get DISPLAY_NAMES (fst tc) with
       | Some display_name =>
           acc ++ [JDict [(display_name, JStr (option_value (fst tc) (snd tc)))]]
       | None => acc
       end) l acc
  = acc ++ flat_map item_types_entry l.
Proof.
  revert acc. induction l as [|tc l IH]; intros acc; cbn [fold_left flat_map].
  - rewrite app_nil_r. reflexivity.
  - rewrite IH. unfold item_types_entry at 2.
    destruct (dict_get DISPLAY_NAMES (fst tc)).
    + rewrite <- app_assoc. reflexivity.
    + reflexivity.
Qed.

Lemma item_types_flat_map (fc : counts) :
  item_types fc = flat_map item_types_entry (sorted fc).
Proof. unfold item_types. rewrite item_types_fold. reflexivity. Qed.

Lemma yml_add_option_line (yml : string) (tc : string * Z) :
  yml_add_option yml tc
  = (yml ++ concat_lines (map yml_line_of_entry (item_types_entry tc)))%string.
Proof.
  unfold yml_add_option, item_types_entry.
  destruct (dict_get DISPLAY_NAMES (fst tc)) as [d|];
    cbn [map concat_lines fold_right yml_line_of_entry].
  - rewrite Z.sub_add. unfold option_value.
    rewrite !string_app_assoc, string_app_nil_r. reflexivity.
  - rewrite string_app_nil_r. reflexivity.
Qed.

Lemma concat_lines_app (l1 l2 : list string) :
  concat_lines (l1 ++ l2) = (concat_lines l1 ++ concat_lines l2)%string.
Proof.
  induction l1 as [|x l1 IH]; cbn [app concat_lines fold_right]; [reflexivity |].
  fold (concat_lines (l1 ++ l2)). fold (concat_lines l1).
  rewrite IH, string_app_assoc. reflexivity.
Qed.

Lemma yml_fold (l : counts) (yml : string) :
  fold_left yml_add_option l yml
  = (yml ++ concat_lines (map yml_line_of_entry (flat_map item_types_entry l)))%string.
Proof.
  revert yml. induction l as [|tc l IH]; intros yml; cbn [fold_left flat_map].
  - cbn. rewrite string_app_nil_r. reflexivity.
  - rewrite IH, yml_add_option_line, map_app, concat_lines_app, string_app_assoc.
    reflexivity.
Qed.

Lemma in_item_types_entry (e : json) (tc : string * Z) :
  In e (item_types_entry tc)
  <-> exists d, dict_get DISPLAY_NAMES (fst tc) = Some d
                /\ e = JDict [(d, JStr (option_value (fst tc) (snd tc)))].
Proof.
  unfold item_types_entry. destruct (dict_get DISPLAY_NAMES (fst tc)) as [d|].
  - split.
    + intros [<- | []]. exists d. split; reflexivity.
    + intros [d' [Hd ->]]. injection Hd as ->. left. reflexivity.
  - split; [intros [] | intros [d [Hd _]]; discriminate].
Qed.

(** X8. [item_types] holds exactly one-pair dicts [{display_name: value}]:
    one for a counted type that has a display name, with the value
    [typename|count], and nothing else; a type without a display name is
    left out. *)
Theorem item_types_entries (fc : counts) (e : json) :
  In e (item_types fc)
  <-> exists typename count display_name,
        In (typename, count) fc
        /\ dict_get DISPLAY_NAMES typename = Some display_name
        /\ e = JDict [(display_name, JStr (option_value typename count))].
Proof.
  rewrite item_types_flat_map, in_flat_map. split.
  - intros [[t n] [Hin He]]. apply in_item_types_entry in He.
    destruct He as [d [Hd ->]]. exists t, n, d. cbn [fst snd] in *.
    split; [| split; [exact Hd | reflexivity]].
    apply (Permutation_in _ (sorted_perm fc)), Hin.
  - intros [t [n [d [Hin [Hd ->]]]]]. exists (t, n). split.
    + apply (Permutation_in _ (Permutation_sym (sorted_perm fc))), Hin.
    + apply in_item_types_entry. exists d. split; [exact Hd | reflexivity].
Qed.

(** X9. options.yml shows the same options as item_types.json: between its
    fixed header and footer it has one line [    - "display_name": value]
    for each entry [{display_name: value}] of [item_types], in the same
    order; the [max_index + 1] it prints is the count again. *)
Theorem options_yml_matches_item_types (fc : counts) :
  generate_options_yml fc
  = (yml_header
       ++ concat_lines (map yml_line_of_entry (item_types fc))
       ++ yml_footer)%string.
Proof.
  unfold generate_options_yml.
  rewrite yml_fold, item_types_flat_map, string_app_assoc. reflexivity.
Qed.

(** X10. Neither manifest depends on the order in which the counts were
    recorded: two dicts [file_counts] with the same items give the same
    item_types.json and the same options.yml. *)
Theorem manifests_ignore_insertion_order (fc fc' : counts)
        (Hperm : Permutation fc fc') :
  generate_item_types_json fc = generate_item_types_json fc'
  /\ generate_options_yml fc = generate_options_yml fc'.
Proof.
  unfold generate_item_types_json, generate_options_yml, item_types.
  rewrite (sorted_of_perm fc fc' Hperm). split; reflexivity.
Qed.

Lemma manifests_ignore_insertion_order_witness :
  Permutation [("skins", 3); ("agents", 1)]%string [("agents", 1); ("skins", 3)]%string
  /\ generate_item_types_json [("skins", 3); ("agents", 1)]%string
     = generate_item_types_json [("agents", 1); ("skins", 3)]%string.
Proof.
  assert (Hp : Permutation [("skins", 3); ("agents", 1)]%string
                           [("agents", 1); ("skins", 3)]%string)
    by apply perm_swap.
  split; [exact Hp |].
  exact (proj1 (manifests_ignore_insertion_order _ _ Hp)).
Defined.

(** X11. The entries of [item_types] follow the type names in ascending
    order (by code point, so [stickers] before [stickers_slab]): they are the
    entries of the items of [file_counts] rearranged so that each item is
    [<=] every later one. *)
Theorem item_types_ascending (fc : counts) :
  exists ordered,
    Permutation ordered fc
    /\ StronglySorted item_le ordered
    /\ item_types fc = flat_map item_types_entry ordered.
Proof.
  exists (sorted fc). split; [apply sorted_perm |].
  split; [apply sorted_sorted | apply item_types_flat_map].
Qed.

(** * [main] *)

Lemma prefix_needs_first_char (c c' : ascii) (old rest : string) :
  Ascii.eqb c' c = false -> prefix (String c old) (String c' rest) = false.
Proof.
  intros Hne. cbn [prefix]. destruct (ascii_dec c c') as [-> | _]; [| reflexivity].
  rewrite Ascii.eqb_refl in Hne. discriminate.
Qed.

(** X12. A file name [stem.json] whose stem holds no dot gives the type name
    [stem]. *)
Theorem typename_of_stem (stem : string) (Hdot : has_char "." stem = false) :
  typename_of (stem ++ ".json") = stem.
Proof.
  unfold typename_of, str_replace.
  induction stem as [|c stem IH].
  - reflexivity.
  - cbn [has_char] in Hdot. apply orb_false_iff in Hdot. destruct Hdot as [Hc Hrest].
    cbn [append replace_from].
    rewrite (prefix_needs_first_char "." c "json" _ Hc).
    rewrite (IH Hrest). reflexivity.
Qed.

Lemma typename_of_stem_witness :
  has_char "." "stickers_slab" = false
  /\ typename_of "stickers_slab.json" = "stickers_slab"%string.
Proof.
  split; [reflexivity |].
  apply (typename_of_stem "stickers_slab"). reflexivity.
Defined.

Lemma counts_setitem_fresh (d : counts) (k : string) (n : Z) :
  ~ In k (map fst d) -> counts_setitem d k n = d ++ [(k, n)].
Proof.
  induction d as [|[k' n'] d IH]; intros Hfresh; cbn [counts_setitem app].
  - reflexivity.
  - cbn [map fst In] in Hfresh.
    destruct (String.eqb_spec k' k) as [-> | _]; [tauto |].
    rewrite IH by tauto. reflexivity.
Qed.

Lemma FILES_typenames :
  map typename_of FILES
  = ["agents"; "base_weapons"; "collectibles"; "collections"; "crates";
     "graffiti"; "highlights"; "keychains"; "keys"; "music_kits"; "patches";
     "skins"; "stickers"; "stickers_slab"; "tools"]%string.
Proof. reflexivity. Qed.

Lemma FILES_typenames_NoDup : NoDup (map typename_of FILES).
Proof.
  rewrite FILES_typenames.
  repeat (constructor; [cbn [In]; intuition discriminate |]). constructor.
Qed.

Lemma FILES_have_display_names :
  Forall (fun f => dict_get DISPLAY_NAMES (typename_of f) <> None) FILES.
Proof. repeat (constructor; [vm_compute; discriminate |]). constructor. Qed.

(** ** The paths [main] writes to *)

Lemma first_segment_app (t r : string) :
  has_char "/" t = false -> first_segment (t ++ String "/" r) = t.
Proof.
  induction t as [|c t IH]; cbn [has_char append first_segment]; intros H.
  - reflexivity.
  - apply orb_false_iff in H. destruct H as [Hc Ht].
    rewrite Hc, (IH Ht). reflexivity.
Qed.

Lemma first_segment_whole (t : string) :
  has_char "/" t = false -> first_segment t = t.
Proof.
  induction t as [|c t IH]; cbn [has_char first_segment]; intros H.
  - reflexivity.
  - apply orb_false_iff in H. destruct H as [Hc Ht].
    rewrite Hc, (IH Ht). reflexivity.
Qed.

Lemma chunk_path_under (data_dir t : string) (i : nat) :
  chunk_path (data_dir ++ "/" ++ t) i
  = (data_dir
       ++ String "/" (t ++ String "/" (NilZero.string_of_uint (Nat.to_uint i)
                                         ++ ".json")))%string.
Proof. unfold chunk_path. rewrite !string_app_assoc. reflexivity. Qed.

Lemma chunk_path_typename (data_dir t t' : string) (i j : nat) :
  has_char "/" t = false -> has_char "/" t' = false ->
  chunk_path (data_dir ++ "/" ++ t) i = chunk_path (data_dir ++ "/" ++ t') j ->
  t = t'.
Proof.
  intros Ht Ht'. rewrite !chunk_path_under. intros H.
  apply append_inv_head in H. injection H as H.
  apply (f_equal first_segment) in H.
  rewrite !first_segment_app in H by assumption. exact H.
Qed.

Lemma chunk_path_not_manifest (data_dir t name : string) (i : nat) :
  has_char "/" t = false -> has_char "/" name = false -> t <> name ->
  chunk_path (data_dir ++ "/" ++ t) i <> (data_dir ++ "/" ++ name)%string.
Proof.
  intros Ht Hn Hne. rewrite chunk_path_under. intros H.
  apply append_inv_head in H. cbn [append] in H. injection H as H.
  apply (f_equal first_segment) in H.
  rewrite first_segment_app, first_segment_whole in H by assumption.
  exact (Hne H).
Qed.

Lemma NoDup_flat_map_disjoint {X Y : Type} (g : X -> list Y) (l : list X) :
  NoDup l ->
  (forall x, In x l -> NoDup (g x)) ->
  (forall x x' y, In x l -> In x' l -> In y (g x) -> In y (g x') -> x = x') ->
  NoDup (flat_map g l).
Proof.
  induction 1 as [|a l Ha _ IH]; intros Hg Hdis; cbn [flat_map]; [constructor |].
  apply NoDup_app.
  - apply Hg. left. reflexivity.
  - apply IH.
    + intros x Hx. apply Hg. right. exact Hx.
    + intros x x' y Hx Hx'. apply Hdis; right; assumption.
  - intros y Hy Hin. apply in_flat_map in Hin. destruct Hin as [x' [Hx' Hy']].
    apply Ha. rewrite (Hdis a x' y); try assumption; [left; reflexivity | right; exact Hx'].
Qed.

Lemma NoDup_map_same {X Y : Type} (h : X -> Y) (l : list X) (x x' : X) :
  NoDup (map h l) -> In x l -> In x' l -> h x = h x' -> x = x'.
Proof.
  induction l as [|a l IH]; [intros _ [] |].
  cbn [map]. intros Hnd Hx Hx' Heq. inversion Hnd as [|? ? Ha Hl]; subst.
  destruct Hx as [-> | Hx], Hx' as [-> | Hx']; try reflexivity.
  - exfalso. apply Ha. rewrite Heq. apply in_map, Hx'.
  - exfalso. apply Ha. rewrite <- Heq. apply in_map, Hx.
  - apply IH; assumption.
Qed.

Lemma FILES_typenames_plain :
  Forall (fun f => has_char "/" (typename_of f) = false
                   /\ typename_of f <> "item_types.json"%string
                   /\ typename_of f <> "options.yml"%string) FILES.
Proof.
  repeat (constructor; [vm_compute; repeat split; discriminate |]). constructor.
Qed.



(** ** One turn of the loop of [main] *)

Lemma main_body_fetched (env : environment) (data_dir : string)
      (st : main_state) (f : string) (data : json) :
  fetched_data env f = Some data ->
  main_body env data_dir st f
  = (chunk_count <- split_json_data_run env MAX_FILE_SIZE data (typename_of f)
                      (data_dir ++ "/" ++ typename_of f) ;;
     ret (mk_main (counts_setitem (file_counts st) (typename_of f) chunk_count)
                  true)).
Proof.
  unfold fetched_data, main_body, download_file.
  destruct (urlopen_json env (BASE_URL ++ "/" ++ f)) as [d| |]; try discriminate.
  destruct d; intros [= <-]; rewrite bind_ret; reflexivity.
Qed.

Lemma main_body_skipped (env : environment) (data_dir : string)
      (st : main_state) (f : string) :
  fetched_data env f = None ->
  urlopen_json env (BASE_URL ++ "/" ++ f) <> OtherError ->
  main_body env data_dir st f = ret st.
Proof.
  unfold fetched_data, main_body, download_file.
  destruct (urlopen_json env (BASE_URL ++ "/" ++ f)) as [d| |];
    [destruct d; try discriminate | |]; intros _ Hne.
  - rewrite bind_ret. reflexivity.
  - rewrite bind_ret. reflexivity.
  - congruence.
Qed.

Lemma main_body_crashed (env : environment) (data_dir : string)
      (st : main_state) (f : string) :
  urlopen_json env (BASE_URL ++ "/" ++ f) = OtherError ->
  main_body env data_dir st f = raise.
Proof.
  unfold main_body, download_file. intros ->. reflexivity.
Qed.

(** What one turn writes is the start of what the file has to save, and all
    of it when the turn ends without an exception; the state then holds the
    count of the file. *)
Lemma main_body_spec (env : environment) (data_dir : string)
      (st : main_state) (f : string) :
  ~ In (typename_of f) (map fst (file_counts st)) ->
  (exists rest,
      saved env data_dir f = log (main_body env data_dir st f) ++ rest)
  /\ (forall st',
         result (main_body env data_dir st f) = Some st' ->
         log (main_body env data_dir st f) = saved env data_dir f
         /\ file_counts st' = file_counts st ++ recorded env data_dir f
         /\ data_dir_made st' = data_dir_made st || is_fetched env f).
Proof.
  intros Hfresh. unfold saved, recorded, is_fetched.
  destruct (fetched_data env f) as [data|] eqn:E.
  - rewrite (main_body_fetched _ _ _ _ _ E). unfold split_json_data.
    set (r := split_json_data_run env MAX_FILE_SIZE data (typename_of f)
                                  (data_dir ++ "/" ++ typename_of f)).
    destruct (result r) as [n|] eqn:Er.
    + destruct (split_json_data_run_done
                  env MAX_FILE_SIZE data (typename_of f)
                  (data_dir ++ "/" ++ typename_of f) n Er) as [Hn [Hlog _]].
      fold r in Hlog. rewrite (bind_some _ _ n) by exact Er.
      cbn [log result ret]. rewrite app_nil_r. split.
      * exists []. rewrite app_nil_r. symmetry. exact Hlog.
      * intros st' [= <-]. cbn [file_counts data_dir_made].
        rewrite counts_setitem_fresh by exact Hfresh.
        rewrite orb_true_r, Hn. repeat split. exact Hlog.
    + rewrite bind_none by exact Er. cbn [log result]. split.
      * apply split_json_data_run_prefix.
      * discriminate.
  - destruct (urlopen_json env (BASE_URL ++ "/" ++ f)) eqn:Eu.
    + rewrite main_body_skipped by (try exact E; congruence).
      split; [exists []; reflexivity |].
      intros st' [= <-]. rewrite app_nil_r, orb_false_r. repeat split.
    + rewrite main_body_skipped by (try exact E; congruence).
      split; [exists []; reflexivity |].
      intros st' [= <-]. rewrite app_nil_r, orb_false_r. repeat split.
    + rewrite main_body_crashed by exact Eu.
      split; [exists []; reflexivity | discriminate].
Qed.

Lemma recorded_keys (env : environment) (data_dir f k : string) :
  In k (map fst (recorded env data_dir f)) -> k = typename_of f.
Proof.
  unfold recorded. destruct (fetched_data env f); cbn.
  - intros [<- | []]. reflexivity.
  - intros [].
Qed.

Lemma main_for_each (env : environment) (data_dir : string) (files : list string) :
  NoDup (map typename_of files) ->
  forall st : main_state,
    (forall f, In f files -> ~ In (typename_of f) (map fst (file_counts st))) ->
    (exists rest,
        flat_map (saved env data_dir) files
        = log (for_each (main_body env data_dir) files st) ++ rest)
    /\ (forall st',
           result (for_each (main_body env data_dir) files st) = Some st' ->
           log (for_each (main_body env data_dir) files st)
           = flat_map (saved env data_dir) files
           /\ file_counts st'
              = file_counts st ++ flat_map (recorded env data_dir) files
           /\ data_dir_made st'
              = data_dir_made st || existsb (is_fetched env) files).
Proof.
  induction files as [|f files IH]; intros Hnd st Hfresh;
    cbn [for_each flat_map existsb].
  - split; [exists []; reflexivity |].
    intros st' [= <-]. rewrite app_nil_r, orb_false_r. repeat split.
  - cbn [map] in Hnd. inversion Hnd as [|? ? Hf Hrest]; subst.
    destruct (main_body_spec env data_dir st f (Hfresh f (or_introl eq_refl)))
      as [[rest1 Hpre1] Hdone1].
    destruct (result (main_body env data_dir st f)) as [st1|] eqn:E1.
    + destruct (Hdone1 st1 eq_refl) as [Hlog1 [Hfc1 Hmade1]].
      rewrite (bind_some _ _ st1) by exact E1. cbn [log result].
      assert (Hfresh1 : forall g, In g files ->
                ~ In (typename_of g) (map fst (file_counts st1))).
      { intros g Hg. rewrite Hfc1, map_app, in_app_iff. intros [Hold | Hnew].
        - apply (Hfresh g); [right; exact Hg | exact Hold].
        - apply recorded_keys in Hnew. apply Hf. rewrite <- Hnew.
          apply in_map, Hg. }
      destruct (IH Hrest st1 Hfresh1) as [[rest2 Hpre2] Hdone2]. split.
      * exists rest2. rewrite Hlog1, Hpre2, app_assoc. reflexivity.
      * intros st' Hres. destruct (Hdone2 st' Hres) as [Hlog2 [Hfc2 Hmade2]].
        rewrite Hlog1, Hlog2, Hfc2, Hfc1, Hmade2, Hmade1, <- app_assoc, orb_assoc.
        repeat split.
    + rewrite bind_none by exact E1. cbn [log result]. split; [| discriminate].
      exists (rest1 ++ flat_map (saved env data_dir) files).
      rewrite Hpre1, app_assoc. reflexivity.
Qed.

Lemma main_loop_spec (env : environment) (data_dir : string) :
  (exists rest,
      flat_map (saved env data_dir) FILES = log (main_loop env data_dir) ++ rest)
  /\ (forall st,
         result (main_loop env data_dir) = Some st ->
         log (main_loop env data_dir) = flat_map (saved env data_dir) FILES
         /\ file_counts st = flat_map (recorded env data_dir) FILES
         /\ data_dir_made st
            = data_dir_exists env || existsb (is_fetched env) FILES).
Proof.
  apply (main_for_each env data_dir FILES FILES_typenames_NoDup
                       (mk_main [] (data_dir_exists env))).
  intros f _ [].
Qed.


(** What [main] writes is the start of the chunk files and the manifests of
    a full run. *)
Lemma main_prefix (env : environment) (data_dir : string) :
  exists rest,
    flat_map (saved env data_dir) FILES
      ++ manifests data_dir (flat_map (recorded env data_dir) FILES)
    = log (main env data_dir) ++ rest.
Proof.
  unfold main. destruct (main_loop_spec env data_dir) as [[rest Hpre] Hdone].
  destruct (result (main_loop env data_dir)) as [st|] eqn:E.
  - destruct (Hdone st eq_refl) as [Hlog [Hfc _]].
    rewrite (bind_some _ _ st) by exact E. cbn [log]. rewrite Hlog, Hfc.
    unfold write_manifest, write_file, manifests.
    destruct (data_dir_made st);
      [| rewrite bind_raise; cbn [log]; rewrite app_nil_r; eexists; reflexivity].
    destruct (os_error env (data_dir ++ "/" ++ "item_types.json")).
    + rewrite bind_raise. cbn [log]. rewrite app_nil_r. eexists. reflexivity.
    + rewrite (bind_some _ _ tt) by reflexivity. cbn [log result].
      destruct (os_error env (data_dir ++ "/" ++ "options.yml")); cbn [log raise].
      * eexists. rewrite <- !app_assoc. cbn [app]. reflexivity.
      * exists []. rewrite <- !app_assoc. reflexivity.
  - rewrite bind_none by exact E. cbn [log]. eexists.
    rewrite Hpre, <- app_assoc. reflexivity.
Qed.

Lemma for_each_crashed (env : environment) (data_dir : string)
      (files : list string) (g : string) :
  In g files -> urlopen_json env (BASE_URL ++ "/" ++ g) = OtherError ->
  forall st, result (for_each (main_body env data_dir) files st) = None.
Proof.
  intros Hg Hcrash. induction files as [|f files IH]; [destruct Hg |].
  intros st. cbn [for_each].
  destruct (result (main_body env data_dir st f)) as [st1|] eqn:E1.
  - rewrite (bind_some _ _ st1) by exact E1. cbn [result].
    destruct Hg as [-> | Hg]; [| apply IH, Hg].
    rewrite main_body_crashed in E1 by exact Hcrash. discriminate.
  - rewrite bind_none by exact E1. reflexivity.
Qed.



Lemma saved_paths (env : environment) (data_dir f p : string) :
  In p (map fst (saved env data_dir f)) ->
  exists i, p = chunk_path (data_dir ++ "/" ++ typename_of f) i.
Proof.
  unfold saved. destruct (fetched_data env f) as [data|]; [| intros []].
  unfold split_json_data, split_json_data_with. cbn [fst].
  rewrite save_chunks_paths, in_map_iff. intros [i [<- _]]. exists i. reflexivity.
Qed.

Lemma saved_paths_NoDup (env : environment) (data_dir f : string) :
  NoDup (map fst (saved env data_dir f)).
Proof.
  unfold saved. destruct (fetched_data env f) as [data|]; [| constructor].
  unfold split_json_data, split_json_data_with. cbn [fst].
  rewrite save_chunks_paths.
  apply NoDup_map_injective; [| apply seq_NoDup].
  intros i j. apply chunk_path_inj.
Qed.

Lemma full_run_paths_distinct (env : environment) (data_dir : string)
      (fc : counts) :
  NoDup (map fst (flat_map (saved env data_dir) FILES ++ manifests data_dir fc)).
Proof.
  rewrite map_app. unfold manifests. cbn [map fst].
  pose proof FILES_typenames_plain as Hplain. rewrite Forall_forall in Hplain.
  apply NoDup_app.
  - rewrite flat_map_concat_map, concat_map, map_map, <- flat_map_concat_map.
    apply NoDup_flat_map_disjoint.
    + apply (NoDup_map_inv _ _ FILES_typenames_NoDup).
    + intros f _. apply saved_paths_NoDup.
    + intros f f' p Hf Hf' Hp Hp'.
      apply saved_paths in Hp. apply saved_paths in Hp'.
      destruct Hp as [i ->], Hp' as [j Hj].
      apply (NoDup_map_same typename_of FILES f f' FILES_typenames_NoDup Hf Hf').
      destruct (Hplain f Hf) as [Hs _]. destruct (Hplain f' Hf') as [Hs' _].
      exact (chunk_path_typename data_dir _ _ i j Hs Hs' Hj).
  - constructor; [| constructor; [intros [] | constructor]].
    intros [H | []]. apply append_inv_head in H. discriminate.
  - intros p Hp Hm.
    rewrite flat_map_concat_map, concat_map, map_map, <- flat_map_concat_map in Hp.
    apply in_flat_map in Hp. destruct Hp as [f [Hf Hp]].
    apply saved_paths in Hp. destruct Hp as [i ->].
    destruct (Hplain f Hf) as [Hs [Hn1 Hn2]].
    destruct Hm as [Hm | [Hm | []]]; symmetry in Hm; revert Hm.
    + apply chunk_path_not_manifest; [exact Hs | reflexivity | exact Hn1].
    + apply chunk_path_not_manifest; [exact Hs | reflexivity | exact Hn2].
Qed.

Example main_sample :
  map fst (log (main quiet_env "data"))
  = ["data/agents/0.json"; "data/keys/0.json"; "data/item_types.json";
     "data/options.yml"]%string
  /\ result (main quiet_env "data") = Some tt
  /\ main (offline_env false) "data" = mk_run [] None.
Proof. repeat split; reflexivity. Qed.



(** X14. When the loop of [main] ends without an exception, every file of
    [FILES] that brought a dataset is listed in [item_types] under its
    display name with the count of its chunks, and a file that brought none
    (a [URLError], or a body that parses to [null], which [main] skips like
    [None]) has no item in [file_counts]. *)
Theorem main_lists_each_download (env : environment) (data_dir filename : string)
        (st : main_state)
        (Hfile : In filename FILES)
        (Hloop : result (main_loop env data_dir) = Some st) :
  match urlopen_json env (BASE_URL ++ "/" ++ filename) with
  | Body JNull | UrlError =>
      forall count, ~ In (typename_of filename, count) (file_counts st)
  | Body data =>
      exists display_name,
        dict_get DISPLAY_NAMES (typename_of filename) = Some display_name
        /\ In (JDict [(display_name,
                       JStr (option_value
                               (typename_of filename)
                               (snd (split_json_data
                                       data
                                       (data_dir ++ "/" ++ typename_of filename)))))])
              (item_types (file_counts st))
  | OtherError => False
  end.
Proof.
  destruct (main_loop_spec env data_dir) as [_ Hdone].
  destruct (Hdone st Hloop) as [_ [Hfc _]]. rewrite Hfc.
  assert (Hlisted : forall data, fetched_data env filename = Some data ->
            exists display_name,
              dict_get DISPLAY_NAMES (typename_of filename) = Some display_name
              /\ In (JDict [(display_name,
                             JStr (option_value
                                     (typename_of filename)
                                     (snd (split_json_data
                                             data
                                             (data_dir ++ "/"
                                                ++ typename_of filename)))))])
                    (item_types (flat_map (recorded env data_dir) FILES))).
  { intros data E.
    pose proof FILES_have_display_names as Hdn. rewrite Forall_forall in Hdn.
    specialize (Hdn filename Hfile).
    destruct (dict_get DISPLAY_NAMES (typename_of filename)) as [d|] eqn:Hd;
      [| congruence].
    exists d. split; [reflexivity |].
    rewrite item_types_flat_map, in_flat_map.
    exists (typename_of filename,
            snd (split_json_data data (data_dir ++ "/" ++ typename_of filename))).
    split.
    - apply (Permutation_in _ (Permutation_sym (sorted_perm _))).
      apply in_flat_map. exists filename. split; [exact Hfile |].
      unfold recorded. rewrite E. left. reflexivity.
    - apply in_item_types_entry. exists d. split; [exact Hd | reflexivity]. }
  assert (Hnone : fetched_data env filename = None ->
            forall count,
              ~ In (typename_of filename, count)
                   (flat_map (recorded env data_dir) FILES)).
  { intros E count Hin. apply in_flat_map in Hin. destruct Hin as [g [Hg Hin]].
    unfold recorded in Hin.
    destruct (fetched_data env g) as [data|] eqn:Eg; [| destruct Hin].
    destruct Hin as [Heq | []]. injection Heq as Ht _.
    rewrite (NoDup_map_same typename_of FILES g filename
               FILES_typenames_NoDup Hg Hfile Ht) in Eg.
    congruence. }
  unfold fetched_data in Hlisted, Hnone.
  destruct (urlopen_json env (BASE_URL ++ "/" ++ filename)) as [d| |] eqn:Eu.
  - destruct d; try (apply Hlisted; reflexivity). apply Hnone. reflexivity.
  - apply Hnone. reflexivity.
  - unfold main_loop in Hloop.
    rewrite (for_each_crashed env data_dir FILES filename Hfile Eu) in Hloop.
    discriminate.
Qed.

Lemma main_lists_each_download_witness :
  In "keys.json"%string FILES
  /\ (exists st, result (main_loop quiet_env "data") = Some st
                 /\ In (JDict [("Keys", JStr "keys|1")]%string)
                       (item_types (file_counts st))
                 /\ forall count, ~ In ("skins"%string, count) (file_counts st)).
Proof.
  assert (Hkeys : In "keys.json"%string FILES) by (cbn; tauto).
  assert (Hskins : In "skins.json"%string FILES) by (cbn; tauto).
  split; [exact Hkeys |].
  destruct (result (main_loop quiet_env "data")) as [st|] eqn:E;
    [| vm_compute in E; discriminate].
  exists st. split; [reflexivity |].
  pose proof (main_lists_each_download quiet_env "data" "keys.json" st Hkeys E)
    as Hk.
  pose proof (main_lists_each_download quiet_env "data" "skins.json" st Hskins E)
    as Hs.
  cbn in Hk, Hs. destruct Hk as [d [Hd He]].
  vm_compute in Hd. injection Hd as <-. split; [exact He | exact Hs].
Defined.



(** X16. A run of [main] never writes twice to the same path, however it
    ends: the chunk files of one dataset have different numbers, those of
    different datasets lie in different directories, and neither manifest
    has the path of a chunk file or of the other manifest. *)
Theorem main_paths_distinct (env : environment) (data_dir : string) :
  NoDup (map fst (log (main env data_dir))).
Proof.
  destruct (main_prefix env data_dir) as [rest Hrest].
  pose proof (full_run_paths_distinct env data_dir
                (flat_map (recorded env data_dir) FILES)) as Hnd.
  rewrite Hrest, map_app in Hnd.
  exact (NoDup_app_remove_r _ _ Hnd).
Qed.

(** X17. When the loop of [main] ends without an exception, the count that
    [file_counts] holds for a dataset is the number of chunk files written
    for it: the files written to the directory of its type are [0.json] up
    to [count - 1] and no other. *)
Theorem recorded_count_is_file_count (env : environment)
        (data_dir filename : string) (data : json) (st : main_state)
        (Hfile : In filename FILES)
        (Hloop : result (main_loop env data_dir) = Some st)
        (Hdata : fetched_data env filename = Some data) :
  exists n : nat,
    In (typename_of filename, Z.of_nat n) (file_counts st)
    /\ forall i,
        In (chunk_path (data_dir ++ "/" ++ typename_of filename) i)
           (map fst (log (main_loop env data_dir)))
        <-> (i < n)%nat.
Proof.
  destruct (main_loop_spec env data_dir) as [_ Hdone].
  destruct (Hdone st Hloop) as [Hlog [Hfc _]]. rewrite Hlog, Hfc.
  exists (List.length (split_chunks MAX_FILE_SIZE data)).
  assert (Hsaved : map fst (saved env data_dir filename)
                   = map (chunk_path (data_dir ++ "/" ++ typename_of filename))
                         (seq 0 (List.length (split_chunks MAX_FILE_SIZE data)))).
  { unfold saved. rewrite Hdata.
    unfold split_json_data, split_json_data_with. cbn [fst].
    apply save_chunks_paths. }
  split.
  - apply in_flat_map. exists filename. split; [exact Hfile |].
    unfold recorded. rewrite Hdata. left. reflexivity.
  - intros i.
    rewrite flat_map_concat_map, concat_map, map_map, <- flat_map_concat_map.
    rewrite in_flat_map. split.
    + intros [g [Hg Hin]].
      destruct (saved_paths env data_dir g _ Hin) as [j Hj].
      pose proof FILES_typenames_plain as Hplain. rewrite Forall_forall in Hplain.
      destruct (Hplain filename Hfile) as [Hs _].
      destruct (Hplain g Hg) as [Hs' _].
      pose proof (chunk_path_typename data_dir _ _ i j Hs Hs' Hj) as Ht.
      rewrite <- (NoDup_map_same typename_of FILES filename g
                    FILES_typenames_NoDup Hfile Hg Ht) in Hin.
      rewrite Hsaved, in_map_iff in Hin. destruct Hin as [k [Hk Hin]].
      apply chunk_path_inj in Hk. subst k. apply in_seq in Hin. lia.
    + intros Hi. exists filename. split; [exact Hfile |].
      rewrite Hsaved. apply in_map, in_seq. lia.
Qed.

Lemma recorded_count_is_file_count_witness :
  In "keys.json"%string FILES
  /\ fetched_data quiet_env "keys.json" = Some (JList [JInt 1])
  /\ exists st n,
      result (main_loop quiet_env "data") = Some st
      /\ In ("keys"%string, Z.of_nat n) (file_counts st)
      /\ forall i, In (chunk_path "data/keys" i)
                      (map fst (log (main_loop quiet_env "data")))
                   <-> (i < n)%nat.
Proof.
  assert (Hkeys : In "keys.json"%string FILES) by (cbn; tauto).
  split; [exact Hkeys |]. split; [reflexivity |].
  destruct (result (main_loop quiet_env "data")) as [st|] eqn:E;
    [| vm_compute in E; discriminate].
  destruct (recorded_count_is_file_count quiet_env "data" "keys.json"
              (JList [JInt 1]) st Hkeys E eq_refl) as [n [Hn Hi]].
  exists st, n. split; [reflexivity |]. split; [exact Hn | exact Hi].
Defined.
